(** * babel-preset-env: the resolution core of [src/index.js]

    A shallow embedding of [isPluginRequired], [transformIncludesAndExcludes],
    [getPlatformSpecificDefaultFor], [getBuiltInTargets], [filterItems],
    [logPlugin] and [buildPreset], followed by the properties of these
    functions.

    Conventions of the embedding.
    - A JavaScript object used as a map is an association list in the order in
      which [Object.keys] and [for ... in] enumerate it (insertion order: the
      keys are environment and item names, never integer-like).  Keys of a
      well-formed object are distinct; a lookup returns the first binding.
      Property lookup is own-property lookup: names inherited from
      [Object.prototype] are no environment names.
    - A JavaScript [Set] is the list of its members in insertion order.
    - A function that can [throw] returns an [outcome]; [buildPreset], which also
      writes to the console, to the module-level flag [hasBeenLogged] and to
      the caller's targets object, runs in a state-and-exception monad over
      [World].
    - What [src/index.js] imports is collected in the class [Imports]. *)

From Stdlib Require Import String Ascii List ZArith NArith Bool Lia DecimalString.
Import ListNotations.
Open Scope string_scope.

(** ** JavaScript values *)

(** The primitive values that occur as versions and option values.  A number
    is an integer here (versions with a fractional part are not covered). *)
Inductive JSValue : Type :=
| JSUndefined
| JSNull
| JSBool (b : bool)
| JSNumber (n : Z)
| JSString (s : string).

(** [ToBoolean]: what [!v], [v && ...], [v || ...] and [if (v)] test. *)
Definition truthy (v : JSValue) : bool :=
  match v with
  | JSUndefined | JSNull => false
  | JSBool b => b
  | JSNumber n => negb (n =? 0)%Z
  | JSString s => negb (s =? "")
  end.

(** [ToString], as a template literal applies it. *)
Definition to_string (v : JSValue) : string :=
  match v with
  | JSUndefined => "undefined"
  | JSNull => "null"
  | JSBool true => "true"
  | JSBool false => "false"
  | JSNumber n => NilZero.string_of_int (Z.to_int n)
  | JSString s => s
  end.

(** [v != null] *)
Definition not_nullish (v : JSValue) : bool :=
  match v with
  | JSUndefined | JSNull => false
  | _ => true
  end.

Definition JSValue_eqb (a b : JSValue) : bool :=
  match a, b with
  | JSUndefined, JSUndefined | JSNull, JSNull => true
  | JSBool x, JSBool y => Bool.eqb x y
  | JSNumber x, JSNumber y => (x =? y)%Z
  | JSString x, JSString y => (x =? y)
  | _, _ => false
  end.

(** The double quote character and the line feed. *)
Definition dquote : string := String (ascii_of_nat 34) EmptyString.
Definition newline : string := String (ascii_of_nat 10) EmptyString.

(** ** Objects used as maps *)

Definition JSObject (V : Type) : Type := list (string * V).

Definition Object_keys {V} (o : JSObject V) : list string := map fst o.

Fixpoint lookup {V} (o : JSObject V) (k : string) : option V :=
  match o with
  | [] => None
  | (k', v) :: o' => if k' =? k then Some v else lookup o' k
  end.

(** [o[k]] on an object of primitive values: [undefined] when [k] is absent. *)
Definition get (o : JSObject JSValue) (k : string) : JSValue :=
  match lookup o k with
  | Some v => v
  | None => JSUndefined
  end.

(** [delete o[k]] *)
Definition delete {V} (o : JSObject V) (k : string) : JSObject V :=
  filter (fun kv => negb (fst kv =? k)) o.

(** [o[k] = v]: an existing key keeps its place, a new one goes last. *)
Fixpoint set {V} (o : JSObject V) (k : string) (v : V) : JSObject V :=
  match o with
  | [] => [(k, v)]
  | (k', v') :: o' => if k' =? k then (k, v) :: o' else (k', v') :: set o' k v
  end.

(** A target map: environment name to lowest supported version. *)
Definition TargetMap : Type := JSObject JSValue.
(** A support table: environment name to the version that first implements
    the feature. *)
Definition SupportTable : Type := JSObject JSValue.
(** [plugins.json], [built-ins.json]: item name to support table. *)
Definition Catalog : Type := JSObject SupportTable.

(** ** Sets of names *)

Definition JSSet : Type := list string.

Definition Set_has (s : JSSet) (x : string) : bool := existsb (String.eqb x) s.

Definition Set_add (x : string) (s : JSSet) : JSSet :=
  if Set_has s x then s else (s ++ [x])%list.

(** ** Exceptions *)

Inductive JSError : Type :=
| Error (message : string)
| TypeError (message : string).

Inductive outcome (A : Type) : Type :=
| Ok (a : A)
| Throw (e : JSError).

Arguments Ok {A} a.
Arguments Throw {A} e.

Definition bind {A B} (r : outcome A) (f : A -> outcome B) : outcome B :=
  match r with
  | Ok a => f a
  | Throw e => Throw e
  end.

Declare Scope js_scope.
Delimit Scope js_scope with js.
Notation "x <- c ;; k" := (bind c (fun x => k))
  (at level 61, c at next level, right associativity) : js_scope.
Open Scope js_scope.

(** [xs.filter(f)] for a callback that may throw: elements are visited in
    order and the first exception ends the traversal. *)
Fixpoint Array_filter {A} (f : A -> outcome bool) (xs : list A) : outcome (list A) :=
  match xs with
  | [] => Ok []
  | x :: xs' =>
      keep <- f x ;;
      rest <- Array_filter f xs' ;;
      Ok (if keep then x :: rest else rest)
  end.

(** A left-to-right loop carrying an accumulator, for a body that may throw:
    [for ... in], [forEach] and [reduce]. *)
Fixpoint foldM {A B} (f : B -> A -> outcome B) (xs : list A) (acc : B) : outcome B :=
  match xs with
  | [] => Ok acc
  | x :: xs' => acc' <- f acc x ;; foldM f xs' acc'
  end.

(** ** The world [buildPreset] runs in *)

(** The address of an object the caller holds. *)
Definition loc : Type := nat.

Record World : Type := {
  (** the objects reachable from the caller's options *)
  heap : loc -> JSObject JSValue;
  (** [let hasBeenLogged = false] at module level *)
  hasBeenLogged : bool;
  (** the lines written by [console.log], oldest first *)
  console : list string
}.

Definition M (A : Type) : Type := World -> outcome A * World.

Definition ret {A} (a : A) : M A := fun w => (Ok a, w).

Definition lift {A} (r : outcome A) : M A := fun w => (r, w).

Definition bindM {A B} (c : M A) (k : A -> M B) : M B :=
  fun w =>
    match c w with
    | (Ok a, w') => k a w'
    | (Throw e, w') => (Throw e, w')
    end.

Notation "x <-- c ;; k" := (bindM c (fun x => k))
  (at level 61, c at next level, right associativity) : js_scope.
Notation "c ;;; k" := (bindM c (fun _ => k))
  (at level 61, right associativity) : js_scope.

Definition console_log (line : string) : M unit :=
  fun w =>
    (Ok tt, {| heap := heap w; hasBeenLogged := hasBeenLogged w;
               console := (console w ++ [line])%list |}).

Definition read_hasBeenLogged : M bool := fun w => (Ok (hasBeenLogged w), w).

Definition write_hasBeenLogged (b : bool) : M unit :=
  fun w => (Ok tt, {| heap := heap w; hasBeenLogged := b; console := console w |}).

(** The current contents of the object behind a reference. *)
Definition read_object (r : loc) : M (JSObject JSValue) :=
  fun w => (Ok (heap w r), w).

(** [delete r[k]], in place. *)
Definition delete_property (r : loc) (k : string) : M unit :=
  fun w =>
    (Ok tt, {| heap := fun r' => if Nat.eqb r' r then delete (heap w r) k else heap w r';
               hasBeenLogged := hasBeenLogged w;
               console := console w |}).

(** [xs.forEach(f)] for an effectful callback. *)
Fixpoint forEachM {A} (f : A -> M unit) (xs : list A) : M unit :=
  match xs with
  | [] => ret tt
  | x :: xs' => f x ;;; forEachM f xs'
  end.

(** ** Options and imports *)

(** What [normalizeOptions(opts)] returns, under the names [buildPreset]
    destructures it to.  [optionsTargets] is a reference: the object is the
    caller's own. *)
Record NormalizedOptions : Type := {
  debug : JSValue;
  optionsExclude : list string;
  optionsInclude : list string;
  loose : JSValue;
  moduleType : JSValue;
  optionsTargets : option loc;
  useBuiltIns : JSValue;
  useSyntax : JSValue
}.

(** The imports of [src/index.js] (lines 1-10) and the host's [JSON.stringify].
    None of them is part of the file; the functions below are stated over any
    implementation of them.
    - [semver_valid v] says that [semver.valid(v)] is not [null];
      [semver_gt] and [semver_lt] are [semver.gt] and [semver.lt], which throw
      on what is no version.
    - [builtInsList] and [pluginList] are the two JSON catalogs,
      [defaultWebIncludes] and [moduleTransformations] the two tables.
    - [getTargets] receives the contents of the raw targets object, or [None]
      for [undefined].
    - [prettifyTargets], [prettifyVersion] and [semverify] come from [./utils].
    - [JSON_stringify o] is [JSON.stringify(o)] and [JSON_stringify_indent2 o]
      is [JSON.stringify(o, null, 2)].
    The imported functions read their arguments only: they write to no object
    of the caller and not to the console. *)
Class Imports : Type := {
  semver_valid : JSValue -> bool;
  semver_gt : JSValue -> JSValue -> outcome bool;
  semver_lt : JSValue -> JSValue -> outcome bool;
  builtInsList : Catalog;
  defaultWebIncludes : list string;
  moduleTransformations : JSObject JSValue;
  RawOptions : Type;
  normalizeOptions : RawOptions -> outcome NormalizedOptions;
  pluginList : Catalog;
  getTargets : option (JSObject JSValue) -> outcome TargetMap;
  prettifyTargets : TargetMap -> outcome (JSObject JSValue);
  prettifyVersion : JSValue -> outcome JSValue;
  semverify : JSValue -> outcome JSValue;
  JSON_stringify : JSObject JSValue -> string;
  JSON_stringify_indent2 : JSObject JSValue -> string
}.

(** ** The output of [buildPreset] *)

Inductive PluginModule : Type :=
| require (id : string)
| addUsedBuiltInsPlugin
| useBuiltInsEntryPlugin.

(** The option objects paired with the plugins.  [onDebug] is a closure over
    [polyfillTargets]; it is represented by the value it captured. *)
Inductive PluginOptions : Type :=
| LooseOptions (loose : JSValue)
| UsageOptions (debug : JSValue) (polyfills : option JSSet) (regenerator : bool)
| EntryOptions (debug : JSValue) (polyfills : option JSSet) (regenerator : bool)
    (onDebug : option TargetMap).

Module Preset.
Record t : Type := { plugins : list (PluginModule * PluginOptions) }.
End Preset.

(** ** [transformIncludesAndExcludes] (lines 77-90) *)

Record IncludesAndExcludes : Type := {
  all : list string;
  plugins : JSSet;
  builtIns : JSSet
}.

Definition isDigit (c : ascii) : bool :=
  (48 <=? nat_of_ascii c)%nat && (nat_of_ascii c <=? 57)%nat.

(** The longest run of digits is dropped: [\d*]. *)
Fixpoint dropDigits (s : string) : string :=
  match s with
  | String c s' => if isDigit c then dropDigits s' else s
  | EmptyString => s
  end.

(** What is left of [s] after the prefix [p], when [s] starts with [p]. *)
Fixpoint stripPrefix (p s : string) : option string :=
  match p, s with
  | EmptyString, _ => Some s
  | String a p', String b s' => if Ascii.eqb a b then stripPrefix p' s' else None
  | String _ _, EmptyString => None
  end.

(** [\.] comes next. *)
Definition startsWithDot (s : string) : bool :=
  match s with
  | String c _ => Ascii.eqb c "."
  | EmptyString => false
  end.

(** [opt.match(/^(es\d+|web)\./)] is not [null]: at the start of [opt],
    either [es], a digit and more digits, or [web]; then a dot.  (A dot is no
    digit, so taking all the digits loses no match.) *)
Definition matchesBuiltIn (opt : string) : bool :=
  match stripPrefix "es" opt with
  | Some (String d rest) => isDigit d && startsWithDot (dropDigits rest)
  | _ => false
  end
  || match stripPrefix "web" opt with
     | Some rest => startsWithDot rest
     | None => false
     end.

Definition transformIncludesAndExcludes (opts : list string) : IncludesAndExcludes :=
  fold_left
    (fun result opt =>
       if matchesBuiltIn opt
       then {| all := all result; plugins := plugins result;
               builtIns := Set_add opt (builtIns result) |}
       else {| all := all result; plugins := Set_add opt (plugins result);
               builtIns := builtIns result |})
    opts
    {| all := opts; plugins := []; builtIns := [] |}.

Section Program.

Context {imports : Imports}.

(** ** [isPluginRequired] (lines 23-53) *)

(** The message of the error thrown at line 40. *)
Definition invalidVersionMessage (environment : string) (lowestTargetedVersion : JSValue)
  : string :=
  "Invalid version passed for target " ++ dquote ++ environment ++ dquote ++ ": "
  ++ dquote ++ to_string lowestTargetedVersion ++ dquote
  ++ ". Versions must be in semver format (major.minor.patch)".

(** The callback given to [targetEnvironments.filter] (lines 30-50). *)
Definition isRequiredForEnvironment (supportedEnvironments : TargetMap)
  (plugin : SupportTable) (environment : string) : outcome bool :=
  if negb (truthy (get plugin environment)) then Ok true
  else
    let lowestImplementedVersion := get plugin environment in
    let lowestTargetedVersion := get supportedEnvironments environment in
    if negb (semver_valid lowestTargetedVersion)
    then Throw (Error (invalidVersionMessage environment lowestTargetedVersion))
    else
      implemented <- semverify lowestImplementedVersion ;;
      semver_gt implemented lowestTargetedVersion.

Definition isPluginRequired (supportedEnvironments : TargetMap) (plugin : SupportTable)
  : outcome bool :=
  let targetEnvironments := Object_keys supportedEnvironments in
  if (length targetEnvironments =? 0)%nat then Ok true
  else
    isRequiredForEnvironments <-
      Array_filter (isRequiredForEnvironment supportedEnvironments plugin)
        targetEnvironments ;;
    Ok (0 <? length isRequiredForEnvironments)%nat.

(** ** [logPlugin] (lines 57-67) *)

Definition logPlugin (plugin : string) (targets : TargetMap) (list : Catalog) : M unit :=
  let envList := match lookup list plugin with Some e => e | None => [] end in
  filteredList <--
    lift (foldM
      (fun a b =>
         if negb (truthy (get envList b))
         then v <- prettifyVersion (get targets b) ;; Ok (set a b v)
         else
           implemented <- semverify (get envList b) ;;
           lower <- semver_lt (get targets b) implemented ;;
           if lower
           then v <- prettifyVersion (get targets b) ;; Ok (set a b v)
           else Ok a)
      (Object_keys targets) []) ;;
  let logStr := "  " ++ plugin ++ " " ++ JSON_stringify filteredList in
  console_log logStr.

(** ** [getBuiltInTargets] (lines 69-75) *)

Definition getBuiltInTargets (targets : TargetMap) : TargetMap :=
  let builtInTargets := targets in
  if not_nullish (get builtInTargets "uglify")
  then delete builtInTargets "uglify"
  else builtInTargets.

(** ** [getPlatformSpecificDefaultFor] (lines 92-98); [None] is [null] *)

Definition getPlatformSpecificDefaultFor (targets : TargetMap) : option (list string) :=
  let targetNames := Object_keys targets in
  let isAnyTarget := (length targetNames =? 0)%nat in
  let isWebTarget := existsb (fun name => negb (name =? "node")) targetNames in
  if isAnyTarget || isWebTarget then Some defaultWebIncludes else None.

(** ** [filterItems] (lines 100-118) *)

(** The body of the [for ... in] loop (lines 104-108); [plugin] is
    [list[item]]. *)
Definition filterItem (excludes : JSSet) (targets : TargetMap) (result : JSSet)
  (entry : string * SupportTable) : outcome JSSet :=
  let (item, plugin) := entry in
  let excluded := Set_has excludes item in
  if negb excluded
  then
    required <- isPluginRequired targets plugin ;;
    Ok (if required then Set_add item result else result)
  else Ok result.

(** Line 112: [defaultItems.forEach(item => !excludes.has(item) && result.add(item))]. *)
Definition addDefaultItems (excludes : JSSet) (defaultItems : list string)
  (result : JSSet) : JSSet :=
  fold_left
    (fun result item => if negb (Set_has excludes item) then Set_add item result else result)
    defaultItems result.

(** Line 115: [includes.forEach(item => result.add(item))]. *)
Definition addIncludes (includes : JSSet) (result : JSSet) : JSSet :=
  fold_left (fun result item => Set_add item result) includes result.

Definition filterItems (list : Catalog) (includes excludes : JSSet) (targets : TargetMap)
  (defaultItems : option (Datatypes.list string)) : outcome JSSet :=
  result <- foldM (filterItem excludes targets) list [] ;;
  let result :=
    match defaultItems with
    | Some defaultItems => addDefaultItems excludes defaultItems result
    | None => result
    end in
  Ok (addIncludes includes result).

(** ** [buildPreset] (lines 120-249) *)

(** Lines 132-143: the deprecated [uglify] target.  The result is
    [hasUglifyTarget]. *)
Definition stripUglifyTarget (optionsTargets : option loc) : M bool :=
  match optionsTargets with
  | None => ret false
  | Some r =>
      o <-- read_object r ;;
      if truthy (get o "uglify")
      then
        delete_property r "uglify" ;;;
        console_log "" ;;;
        console_log "The uglify target has been deprecated. Set the top level" ;;;
        console_log "option `useSyntax: false` instead." ;;;
        console_log "" ;;;
        ret true
      else ret false
  end.

(** Line 145: [getTargets(optionsTargets)] reads the object as it is then. *)
Definition callGetTargets (optionsTargets : option loc) : M TargetMap :=
  match optionsTargets with
  | None => lift (getTargets None)
  | Some r => o <-- read_object r ;; lift (getTargets (Some o))
  end.

(** Line 149: [!useSyntax || hasUglifyTarget ? {} : targets]. *)
Definition effectiveTransformTargets (useSyntax : JSValue) (hasUglifyTarget : bool)
  (targets : TargetMap) : TargetMap :=
  if negb (truthy useSyntax) || hasUglifyTarget then [] else targets.

(** The local variables of [buildPreset] once the item sets are resolved
    (after line 171).  [None] in the last two is [undefined]. *)
Record Resolution : Type := {
  hasUglifyTarget : bool;
  targets : TargetMap;
  include : IncludesAndExcludes;
  exclude : IncludesAndExcludes;
  transformTargets : TargetMap;
  transformations : JSSet;
  polyfills : option JSSet;
  polyfillTargets : option TargetMap
}.

(** Lines 132-171. *)
Definition buildPreset_resolve (n : NormalizedOptions) : M Resolution :=
  hasUglifyTarget <-- stripUglifyTarget (optionsTargets n) ;;
  targets <-- callGetTargets (optionsTargets n) ;;
  let include := transformIncludesAndExcludes (optionsInclude n) in
  let exclude := transformIncludesAndExcludes (optionsExclude n) in
  let transformTargets := effectiveTransformTargets (useSyntax n) hasUglifyTarget targets in
  transformations <--
    lift (filterItems pluginList (plugins include) (plugins exclude) transformTargets None) ;;
  if truthy (useBuiltIns n)
  then
    let polyfillTargets := getBuiltInTargets targets in
    polyfills <--
      lift (filterItems builtInsList (builtIns include) (builtIns exclude) polyfillTargets
              (getPlatformSpecificDefaultFor polyfillTargets)) ;;
    ret {| hasUglifyTarget := hasUglifyTarget; targets := targets;
           include := include; exclude := exclude;
           transformTargets := transformTargets; transformations := transformations;
           polyfills := Some polyfills; polyfillTargets := Some polyfillTargets |}
  else
    ret {| hasUglifyTarget := hasUglifyTarget; targets := targets;
           include := include; exclude := exclude;
           transformTargets := transformTargets; transformations := transformations;
           polyfills := None; polyfillTargets := None |}.

(** Lines 173-199: the one-time summary of a [debug] run. *)
Definition logSummary (n : NormalizedOptions) (r : Resolution) : M unit :=
  logged <-- read_hasBeenLogged ;;
  if truthy (debug n) && negb logged
  then
    write_hasBeenLogged true ;;;
    console_log "babel-preset-env: `DEBUG` option" ;;;
    console_log (newline ++ "Using targets:") ;;;
    pretty <-- lift (prettifyTargets (targets r)) ;;
    console_log (JSON_stringify_indent2 pretty) ;;;
    console_log (newline ++ "Modules transform: " ++ to_string (moduleType n)) ;;;
    console_log "" ;;;
    console_log "Plugins" ;;;
    console_log "=========" ;;;
    console_log "" ;;;
    if (length (transformations r) =? 0)%nat
    then console_log "Based on your targets none were added."
    else
      console_log
        (if negb (truthy (useSyntax n)) then "Added all plugins (useSyntax: false):"
         else if hasUglifyTarget r then "Added all plugins (target: uglify):"
         else "Added the following plugins based on your targets:") ;;;
      forEachM (fun transform => logPlugin transform (transformTargets r) pluginList)
        (transformations r)
  else ret tt.

(** Lines 201-212: the module transformation, then one plugin for each selected
    transformation.  [require] is taken to find each module. *)
Definition transformPlugins (n : NormalizedOptions) (r : Resolution)
  : list (PluginModule * PluginOptions) :=
  let moduleTransformation := get moduleTransformations (to_string (moduleType n)) in
  ((if negb (JSValue_eqb (moduleType n) (JSBool false)) && truthy moduleTransformation
    then [(require ("babel-plugin-" ++ to_string moduleTransformation), LooseOptions (loose n))]
    else [])
   ++ map (fun pluginName => (require ("babel-plugin-" ++ pluginName), LooseOptions (loose n)))
        (transformations r))%list.

(** Lines 173-248. *)
Definition buildPreset_emit (n : NormalizedOptions) (r : Resolution) : M Preset.t :=
  logSummary n r ;;;
  let plugins := transformPlugins n r in
  let regenerator := Set_has (transformations r) "transform-regenerator" in
  (if truthy (debug n)
   then
     console_log "" ;;;
     console_log "Polyfills" ;;;
     console_log "=========" ;;;
     console_log ""
   else ret tt) ;;;
  if JSValue_eqb (useBuiltIns n) (JSString "usage")
  then
    ret {| Preset.plugins :=
             (plugins ++ [(addUsedBuiltInsPlugin,
                           UsageOptions (debug n) (polyfills r) regenerator)])%list |}
  else if JSValue_eqb (useBuiltIns n) (JSString "entry")
  then
    ret {| Preset.plugins :=
             (plugins ++ [(useBuiltInsEntryPlugin,
                           EntryOptions (debug n) (polyfills r) regenerator
                             (polyfillTargets r))])%list |}
  else
    (if truthy (debug n)
     then console_log "None were added, since the `useBuiltIns` option was not set."
     else ret tt) ;;;
    ret {| Preset.plugins := plugins |}.

(** [context] is not used by the function. *)
Definition buildPreset {BabelApi : Type} (context : BabelApi) (opts : RawOptions)
  : M Preset.t :=
  n <-- lift (normalizeOptions opts) ;;
  r <-- buildPreset_resolve n ;;
  buildPreset_emit n r.

End Program.

(** ** A concrete set of imports

    The examples below run the functions on this instance.  It covers plain
    [MAJOR.MINOR.PATCH] versions; everything else is reported as no version. *)

Module Sample.

Fixpoint digitsValue (s : string) (acc : N) : option N :=
  match s with
  | EmptyString => Some acc
  | String c s' =>
      if isDigit c
      then digitsValue s' (acc * 10 + N.of_nat (nat_of_ascii c - 48))%N
      else None
  end.

(** [0|[1-9]\d*], at most [Number.MAX_SAFE_INTEGER]. *)
Definition numericIdentifier (s : string) : option N :=
  match s with
  | EmptyString => None
  | String "0" EmptyString => Some 0%N
  | String "0" _ => None
  | _ =>
      match digitsValue s 0 with
      | Some n => if (n <=? 9007199254740991)%N then Some n else None
      | None => None
      end
  end.

(** [s.split(".")] *)
Fixpoint splitDots (s : string) : list string :=
  match s with
  | EmptyString => [EmptyString]
  | String c s' =>
      if Ascii.eqb c "."
      then EmptyString :: splitDots s'
      else
        match splitDots s' with
        | part :: parts => String c part :: parts
        | [] => [String c EmptyString]
        end
  end.

Definition parse (v : JSValue) : option (N * N * N) :=
  match v with
  | JSString s =>
      match splitDots s with
      | [major; minor; patch] =>
          match numericIdentifier major, numericIdentifier minor, numericIdentifier patch with
          | Some x, Some y, Some z => Some (x, y, z)
          | _, _, _ => None
          end
      | _ => None
      end
  | _ => None
  end.

Definition valid (v : JSValue) : bool :=
  match parse v with
  | Some _ => true
  | None => false
  end.

Definition compareMain (a b : N * N * N) : comparison :=
  let '(a1, a2, a3) := a in
  let '(b1, b2, b3) := b in
  match (a1 ?= b1)%N with
  | Eq => match (a2 ?= b2)%N with
          | Eq => (a3 ?= b3)%N
          | c => c
          end
  | c => c
  end.

Definition compare (a b : JSValue) : outcome comparison :=
  match parse a with
  | None => Throw (TypeError ("Invalid Version: " ++ to_string a))
  | Some x =>
      match parse b with
      | None => Throw (TypeError ("Invalid Version: " ++ to_string b))
      | Some y => Ok (compareMain x y)
      end
  end.

Definition gt (a b : JSValue) : outcome bool :=
  c <- compare a b ;; Ok (match c with Gt => true | _ => false end).

Definition lt (a b : JSValue) : outcome bool :=
  c <- compare a b ;; Ok (match c with Lt => true | _ => false end).

Definition allDigits (s : string) : bool :=
  match s with
  | EmptyString => false
  | String c s' => isDigit c && match dropDigits s' with EmptyString => true | _ => false end
  end.

(** Modelled from the spec: [semverify] of [./utils], which is not under
    [src/].  "Accepts either an already-valid semantic version string, or a
    single non-negative integer/numeric-string (treated as a major version with
    minor=0, patch=0). Fails (raises an error) on any other shape." *)
Definition semverify_spec (version : JSValue) : outcome JSValue :=
  match version with
  | JSString s =>
      if valid version then Ok version
      else if allDigits s then Ok (JSString (s ++ ".0.0"))
      else Throw (Error ("Invalid candidate version: " ++ s))
  | JSNumber n =>
      if (0 <=? n)%Z then Ok (JSString (to_string version ++ ".0.0"))
      else Throw (Error ("Invalid candidate version: " ++ to_string version))
  | _ => Throw (Error ("Invalid candidate version: " ++ to_string version))
  end.

(** Modelled from the spec: [prettifyVersion] and [prettifyTargets] of
    [./utils], which are not under [src/]; they are "for human-readable
    rendering only" and "render every present target".  Here a version is
    rendered as it stands. *)
Definition prettifyVersion_spec (version : JSValue) : outcome JSValue := Ok version.

Definition prettifyTargets_spec (targets : TargetMap) : outcome (JSObject JSValue) :=
  foldM (fun a kv => v <- prettifyVersion_spec (snd kv) ;; Ok (set a (fst kv) v)) targets [].

(** Two entries of the transformation catalog, as the spec's scenarios give
    them, and a polyfill catalog of the same size. *)
Definition plugins_json : Catalog :=
  [("transform-exponentiation-operator", [("chrome", JSString "52")]);
   ("transform-async-to-generator", [("chrome", JSString "60")])].

Definition built_ins_json : Catalog :=
  [("es6.promise", [("chrome", JSString "51")]);
   ("web.timers", [])].

Definition default_includes : list string :=
  ["web.timers"; "web.immediate"; "web.dom.iterable"].

Definition module_transformations : JSObject JSValue :=
  [("commonjs", JSString "transform-es2015-modules-commonjs")].

(** Modelled from the spec: [getTargets] of [./targets-parser], which is not
    under [src/].  The target descriptor is "pre-normalized ... (consumed
    as-is)"; no descriptor gives no targets. *)
Definition getTargets_spec (raw : option (JSObject JSValue)) : outcome TargetMap :=
  match raw with
  | Some o => Ok o
  | None => Ok []
  end.

(** A rendering of a flat object, without escapes. *)
Definition stringify (o : JSObject JSValue) : string :=
  "{" ++ String.concat ","
           (map (fun kv =>
                   dquote ++ fst kv ++ dquote ++ ":" ++
                   match snd kv with
                   | JSString s => dquote ++ s ++ dquote
                   | v => to_string v
                   end) o)
      ++ "}".

(** Modelled from the spec: [normalizeOptions] of [./normalize-options.js],
    which is not under [src/]; the options are taken as already normalized. *)
Definition imports : Imports := {|
  semver_valid := valid;
  semver_gt := gt;
  semver_lt := lt;
  builtInsList := built_ins_json;
  defaultWebIncludes := default_includes;
  moduleTransformations := module_transformations;
  RawOptions := NormalizedOptions;
  normalizeOptions := fun opts => Ok opts;
  pluginList := plugins_json;
  getTargets := getTargets_spec;
  prettifyTargets := prettifyTargets_spec;
  prettifyVersion := prettifyVersion_spec;
  semverify := semverify_spec;
  JSON_stringify := stringify;
  JSON_stringify_indent2 := stringify
|}.

(** A world whose every reference leads to the object [o]; nothing logged. *)
Definition world (o : JSObject JSValue) : World :=
  {| heap := fun _ => o; hasBeenLogged := false; console := [] |}.

(** Normalized options with the targets object at address [0], the given
    [exclude] and [useSyntax], and no [useBuiltIns]. *)
Definition options (exclude : list string) (useSyntax : JSValue) : NormalizedOptions :=
  {| debug := JSBool false;
     optionsExclude := exclude;
     optionsInclude := [];
     loose := JSBool false;
     moduleType := JSString "commonjs";
     optionsTargets := Some 0%nat;
     useBuiltIns := JSBool false;
     useSyntax := useSyntax |}.

End Sample.

(** Options and worlds for the examples of the further properties. *)

Module Scenario.

(** [include] and [exclude] both name [my-plugin], [transform-regenerator] is
    included, and polyfills are injected by usage. *)
Definition usage_options : NormalizedOptions :=
  {| debug := JSBool false;
     optionsExclude := ["my-plugin"];
     optionsInclude := ["my-plugin"; "transform-regenerator"];
     loose := JSBool false;
     moduleType := JSString "commonjs";
     optionsTargets := Some 0%nat;
     useBuiltIns := JSString "usage";
     useSyntax := JSBool true |}.

Definition node_only : World := Sample.world [("node", JSString "8.0.0")].

Definition chrome_only : World := Sample.world [("chrome", JSString "55.0.0")].

Definition with_uglify : World :=
  Sample.world [("uglify", JSBool true); ("chrome", JSString "55.0.0")].

(** A catalog with one item, supported since [chrome 60] and [edge 12]. *)
Definition one_item : Catalog :=
  [("transform-x", [("chrome", JSString "60"); ("edge", JSString "12")])].

Definition two_targets : TargetMap :=
  [("chrome", JSString "55.0.0"); ("edge", JSString "14.0.0")].

End Scenario.

(** ** Vocabulary of the statements *)

Section Vocabulary.

Context {imports : Imports}.

(** Every value of the target map is a valid semantic version. *)
Definition validTargets (T : TargetMap) : Prop :=
  forall k, In k (Object_keys T) -> semver_valid (get T k) = true.

(** The entry of [S] for [k] normalizes, and the comparison with the target's
    version answers [newer]. *)
Definition comparesAs (T : TargetMap) (S : SupportTable) (k : string) (newer : bool)
  : Prop :=
  exists v, semverify (get S k) = Ok v /\ semver_gt v (get T k) = Ok newer.

(** The normalized version [S[k]] is strictly greater than [T[k]]. *)
Definition newerThanTarget (T : TargetMap) (S : SupportTable) (k : string) : Prop :=
  comparesAs T S k true.

(** The evaluation of one environment completes. *)
Definition evaluates (T : TargetMap) (S : SupportTable) (k : string) : Prop :=
  exists required, isRequiredForEnvironment T S k = Ok required.

(** The evaluator answers for every catalog entry that is not excluded. *)
Definition answersFor (list : Catalog) (excludes : JSSet) (targets : TargetMap) : Prop :=
  forall item plugin,
    In (item, plugin) list -> Set_has excludes item = false ->
    exists b, isPluginRequired targets plugin = Ok b.

End Vocabulary.

(** A computation that leaves every object of the heap as it was. *)
Definition heap_stable {A} (c : M A) : Prop :=
  forall w, heap (snd (c w)) = heap w.

(** The names the pattern [/^(es\d+|web)\./] accepts, in the words of the
    specification: "starts with [es<digits>.] or [web.]". *)
Definition onlyDigits (s : string) : Prop :=
  forall c, In c (list_ascii_of_string s) -> isDigit c = true.

Definition BuiltInName (name : string) : Prop :=
  (exists digits rest,
      digits <> EmptyString /\ onlyDigits digits /\ name = "es" ++ digits ++ "." ++ rest)
  \/ (exists rest, name = "web." ++ rest).

(** A computation whose final world is related to its initial world by [R],
    whether it returns or throws. *)
Definition follows (R : World -> World -> Prop) {A} (c : M A) : Prop :=
  forall w, R w (snd (c w)).

(** The flag [hasBeenLogged] is not reset. *)
Definition flagKept (w w' : World) : Prop :=
  hasBeenLogged w = true -> hasBeenLogged w' = true.

(** Lines are only added to the console. *)
Definition consoleGrows (w w' : World) : Prop :=
  exists lines, console w' = (console w ++ lines)%list.

(** Nothing is written at all. *)
Definition unchanged (w w' : World) : Prop := w' = w.

(** The four lines of the deprecation notice (lines 139-142). *)
Definition deprecationNotice : list string :=
  [EmptyString;
   "The uglify target has been deprecated. Set the top level";
   "option `useSyntax: false` instead.";
   EmptyString].

Section LogVocabulary.

Context {imports : Imports}.

(** The environments [logPlugin] lists for a support table (line 60): the
    entry is falsy, or the targeted version is lower than the normalized
    entry. *)
Definition listedFor (targets : TargetMap) (envList : SupportTable) (b : string) : Prop :=
  truthy (get envList b) = false \/
  exists implemented,
    semverify (get envList b) = Ok implemented /\
    semver_lt (get targets b) implemented = Ok true.

(** The callback of the [reduce] in [logPlugin] (lines 59-64), as written
    there. *)
Definition logPlugin_step (targets : TargetMap) (envList : SupportTable)
  (a : JSObject JSValue) (b : string) : outcome (JSObject JSValue) :=
  if negb (truthy (get envList b))
  then v <- prettifyVersion (get targets b) ;; Ok (set a b v)
  else
    implemented <- semverify (get envList b) ;;
    lower <- semver_lt (get targets b) implemented ;;
    if lower
    then v <- prettifyVersion (get targets b) ;; Ok (set a b v)
    else Ok a.

(** [list[plugin] || {}] (line 58). *)
Definition envListOf (list : Catalog) (plugin : string) : SupportTable :=
  match lookup list plugin with
  | Some e => e
  | None => []
  end.

(** [semver.lt(a, b)] and [semver.gt(b, a)] answer alike for the targeted
    versions and the normalized entries of a support table. *)
Definition comparisonsAgree (targets : TargetMap) (envList : SupportTable) : Prop :=
  forall k implemented answer,
    In k (Object_keys targets) ->
    semverify (get envList k) = Ok implemented ->
    (semver_lt (get targets k) implemented = Ok answer <->
     semver_gt implemented (get targets k) = Ok answer).

End LogVocabulary.

(** * Properties *)

(** ** Sets and loops *)

Lemma Set_has_In (s : JSSet) (x : string) : Set_has s x = true <-> In x s.
Proof.
  unfold Set_has. rewrite existsb_exists. split.
  - intros (y & Hy & Heq). apply String.eqb_eq in Heq. now subst.
  - intros Hin. exists x. split; [assumption | apply String.eqb_refl].
Qed.

Lemma Set_has_false (s : JSSet) (x : string) : Set_has s x = false <-> ~ In x s.
Proof.
  rewrite <- Set_has_In. destruct (Set_has s x); split; congruence.
Qed.

Lemma In_Set_add (x y : string) (s : JSSet) : In y (Set_add x s) <-> y = x \/ In y s.
Proof.
  unfold Set_add. destruct (Set_has s x) eqn:Hx.
  - apply Set_has_In in Hx. split; [auto | intros [-> | H]; assumption].
  - rewrite in_app_iff. simpl. intuition congruence.
Qed.

Lemma Array_filter_Ok {A} (f : A -> outcome bool) (xs kept : list A) :
  Array_filter f xs = Ok kept ->
  (forall x, In x xs -> exists b, f x = Ok b) /\
  (forall x, In x kept <-> In x xs /\ f x = Ok true).
Proof.
  revert kept. induction xs as [| a xs IH]; simpl; intros kept H.
  - injection H as <-. split; [intros x [] | intros x; simpl; tauto].
  - destruct (f a) as [b | e] eqn:Hfa; simpl in H; [| discriminate].
    destruct (Array_filter f xs) as [rest | e] eqn:Hrest; simpl in H; [| discriminate].
    injection H as <-. destruct (IH rest eq_refl) as [Hall Hiff]. split.
    + intros x [<- | Hx]; [eauto | auto].
    + intros x. destruct b; simpl; rewrite Hiff; split.
      * intros [<- | [Hx Hfx]]; auto.
      * intros [[<- | Hx] Hfx]; auto.
      * intros [Hx Hfx]; auto.
      * intros [[<- | Hx] Hfx]; [congruence | auto].
Qed.

Lemma Array_filter_total {A} (f : A -> outcome bool) (xs : list A) :
  (forall x, In x xs -> exists b, f x = Ok b) ->
  exists kept, Array_filter f xs = Ok kept.
Proof.
  induction xs as [| a xs IH]; simpl; intros Hall.
  - eauto.
  - destruct (Hall a (or_introl eq_refl)) as [b ->].
    destruct IH as [rest ->]; [auto |]. simpl. eauto.
Qed.

Lemma Array_filter_Throw {A} (f : A -> outcome bool) (before after : list A) (x : A)
  (e : JSError) :
  (forall y, In y before -> exists b, f y = Ok b) ->
  f x = Throw e ->
  Array_filter f (before ++ x :: after) = Throw e.
Proof.
  induction before as [| a before IH]; simpl; intros Hall Hx.
  - now rewrite Hx.
  - destruct (Hall a (or_introl eq_refl)) as [b ->]. simpl.
    rewrite IH; auto.
Qed.

(** An element whose callback throws makes the whole traversal throw: either
    there, or at an earlier element. *)
Lemma Array_filter_throws {A} (f : A -> outcome bool) (xs : list A) (x : A) (e : JSError) :
  In x xs -> f x = Throw e -> exists e', Array_filter f xs = Throw e'.
Proof.
  induction xs as [| a xs IH]; simpl; intros Hin Hx; [contradiction |].
  destruct (f a) as [b | e0] eqn:Hfa; simpl; [| eauto].
  destruct Hin as [-> | Hin]; [congruence |].
  destruct (IH Hin Hx) as [e' ->]. simpl. eauto.
Qed.

Section Evaluator.

Context {imports : Imports}.

(** ** [isPluginRequired] *)

Lemma isRequiredForEnvironment_falsy (T : TargetMap) (S : SupportTable) (k : string) :
  truthy (get S k) = false -> isRequiredForEnvironment T S k = Ok true.
Proof.
  intros H. unfold isRequiredForEnvironment. now rewrite H.
Qed.

Lemma isRequiredForEnvironment_valid (T : TargetMap) (S : SupportTable) (k : string) :
  truthy (get S k) = true ->
  semver_valid (get T k) = true ->
  isRequiredForEnvironment T S k =
    (implemented <- semverify (get S k) ;; semver_gt implemented (get T k)).
Proof.
  intros Ht Hv. unfold isRequiredForEnvironment. now rewrite Ht, Hv.
Qed.

Lemma isRequiredForEnvironment_invalid (T : TargetMap) (S : SupportTable) (k : string) :
  truthy (get S k) = true ->
  semver_valid (get T k) = false ->
  isRequiredForEnvironment T S k = Throw (Error (invalidVersionMessage k (get T k))).
Proof.
  intros Ht Hv. unfold isRequiredForEnvironment. now rewrite Ht, Hv.
Qed.

(** For a valid target version, one environment answers [b] exactly when the
    entry is falsy and [b] is [true], or the entry compares as [b]. *)
Lemma isRequiredForEnvironment_Ok (T : TargetMap) (S : SupportTable) (k : string) (b : bool) :
  semver_valid (get T k) = true ->
  (isRequiredForEnvironment T S k = Ok b <->
   (truthy (get S k) = false /\ b = true) \/
   (truthy (get S k) = true /\ comparesAs T S k b)).
Proof.
  intros Hv. destruct (truthy (get S k)) eqn:Ht.
  - rewrite isRequiredForEnvironment_valid by assumption. unfold comparesAs. split.
    + intros H. right. split; [reflexivity |].
      destruct (semverify (get S k)) as [v | e]; simpl in H; [eauto | discriminate].
    + intros [[Hf _] | [_ (v & Hs & Hg)]]; [discriminate |]. now rewrite Hs.
  - rewrite isRequiredForEnvironment_falsy by assumption. split.
    + intros H. injection H as <-. auto.
    + intros [[_ ->] | [Hf _]]; [reflexivity | discriminate].
Qed.

Lemma isPluginRequired_nonempty (T : TargetMap) (S : SupportTable) :
  T <> [] ->
  isPluginRequired T S =
    (kept <- Array_filter (isRequiredForEnvironment T S) (Object_keys T) ;;
     Ok (0 <? length kept)%nat).
Proof.
  intros Hne. unfold isPluginRequired. destruct T; [congruence | reflexivity].
Qed.

Lemma length_pos_In {A} (l : list A) : (0 <? length l)%nat = true <-> exists x, In x l.
Proof.
  destruct l as [| a l]; simpl; split.
  - discriminate.
  - intros [x []].
  - intros _. exists a. now left.
  - reflexivity.
Qed.

End Evaluator.

Section RequirementEvaluator.

Context {imports : Imports}.

Lemma evaluates_of_comparable (T : TargetMap) (S : SupportTable) :
  validTargets T ->
  (forall k, In k (Object_keys T) -> truthy (get S k) = true -> exists b, comparesAs T S k b) ->
  forall k, In k (Object_keys T) -> exists b, isRequiredForEnvironment T S k = Ok b.
Proof.
  intros Hv Hc k Hk. destruct (truthy (get S k)) eqn:Ht.
  - destruct (Hc k Hk Ht) as [b Hb]. exists b.
    apply isRequiredForEnvironment_Ok; auto.
  - exists true. now apply isRequiredForEnvironment_falsy.
Qed.

(** The evaluator completes on valid targets and comparable entries. *)
Lemma isPluginRequired_total (T : TargetMap) (S : SupportTable) :
  validTargets T ->
  (forall k, In k (Object_keys T) -> truthy (get S k) = true -> exists b, comparesAs T S k b) ->
  exists b, isPluginRequired T S = Ok b.
Proof.
  intros Hv Hc. destruct T as [| kv T'] eqn:HT; [now exists true |]. rewrite <- HT in *.
  rewrite isPluginRequired_nonempty by (subst; discriminate).
  destruct (Array_filter_total _ _ (evaluates_of_comparable T S Hv Hc)) as [kept ->].
  simpl. eauto.
Qed.

(** C4.  With an empty target map the evaluator answers [true], whatever the
    support table (the empty one included). *)
Theorem isPluginRequired_no_targets (S : SupportTable) :
  isPluginRequired [] S = Ok true /\ isPluginRequired [] [] = Ok true.
Proof.
  split; reflexivity.
Qed.

(** C1, amended.  For a non-empty target map [T] of valid versions and any
    support table [S], [isPluginRequired T S] returns [true] exactly when every
    truthy entry of [S] at a key of [T] normalizes and compares without error,
    and some key [k] of [T] has no truthy entry in [S] (absent, or a falsy value
    such as [0]) or has a normalized version strictly greater than [T[k]].  In
    particular, when [S] has for every key of [T] a truthy entry whose
    normalized version is not greater than [T]'s, it returns [false]. *)
Theorem isPluginRequired_true_iff (T : TargetMap) (S : SupportTable) :
  T <> [] ->
  validTargets T ->
  (isPluginRequired T S = Ok true <->
   (forall k, In k (Object_keys T) -> truthy (get S k) = true -> exists b, comparesAs T S k b) /\
   (exists k, In k (Object_keys T) /\ (truthy (get S k) = false \/ newerThanTarget T S k)))
  /\
  ((forall k, In k (Object_keys T) -> truthy (get S k) = true /\ comparesAs T S k false) ->
   isPluginRequired T S = Ok false).
Proof.
  intros Hne Hv. rewrite isPluginRequired_nonempty by assumption. split; [split |].
  - intros H.
    destruct (Array_filter _ _) as [kept | e] eqn:Hf; simpl in H; [| discriminate].
    injection H as Hlen. apply length_pos_In in Hlen as [k Hk].
    destruct (Array_filter_Ok _ _ _ Hf) as [Hall Hiff]. split.
    + intros k' Hk' Ht. destruct (Hall k' Hk') as [b Hb]. exists b.
      apply isRequiredForEnvironment_Ok in Hb; [| auto].
      destruct Hb as [[Hfalse _] | [_ Hc]]; [congruence | assumption].
    + apply Hiff in Hk as [Hin Hreq]. exists k. split; [assumption |].
      apply isRequiredForEnvironment_Ok in Hreq; [| auto].
      destruct Hreq as [[Hfalse _] | [_ Hc]]; auto.
  - intros [Hc (k & Hk & Hreq)].
    destruct (Array_filter_total _ _ (evaluates_of_comparable T S Hv Hc)) as [kept Hf].
    rewrite Hf. simpl. f_equal. apply length_pos_In. exists k.
    apply (Array_filter_Ok _ _ _ Hf). split; [assumption |].
    apply isRequiredForEnvironment_Ok; [auto |].
    destruct (truthy (get S k)) eqn:Ht; [| left; auto].
    destruct Hreq as [Hfalse | Hnew]; [discriminate | right; auto].
  - intros Hall.
    assert (Hc : forall k, In k (Object_keys T) -> truthy (get S k) = true ->
                 exists b, comparesAs T S k b).
    { intros k Hk _. exists false. apply Hall, Hk. }
    destruct (Array_filter_total _ _ (evaluates_of_comparable T S Hv Hc)) as [kept Hf].
    rewrite Hf. simpl. f_equal.
    destruct kept as [| k kept]; [reflexivity | exfalso].
    destruct (Array_filter_Ok _ _ _ Hf) as [_ Hiff].
    destruct (proj1 (Hiff k) (or_introl eq_refl)) as [Hk Hreq].
    destruct (Hall k Hk) as [Ht Hcmp].
    assert (Hno : isRequiredForEnvironment T S k = Ok false).
    { apply isRequiredForEnvironment_Ok; auto. }
    congruence.
Qed.

(** C2, amended.  When some environment [k] of the target map has a value that
    is not a valid semantic version and the support table has a truthy entry
    for [k], [isPluginRequired] raises an error instead of returning a boolean;
    when [k] is the first environment whose evaluation fails, the error is the
    one of line 40, and its message quotes the environment and the value. *)
Theorem isPluginRequired_invalid_target (T : TargetMap) (S : SupportTable) (k : string) :
  In k (Object_keys T) ->
  semver_valid (get T k) = false ->
  truthy (get S k) = true ->
  (exists e, isPluginRequired T S = Throw e) /\
  (forall before after,
      Object_keys T = (before ++ k :: after)%list ->
      (forall k', In k' before -> evaluates T S k') ->
      isPluginRequired T S = Throw (Error (invalidVersionMessage k (get T k)))) /\
  (exists pre mid post,
      invalidVersionMessage k (get T k) =
        pre ++ dquote ++ k ++ dquote ++ mid ++ dquote ++ to_string (get T k) ++ dquote ++ post).
Proof.
  intros Hk Hv Ht.
  assert (Hne : T <> []) by (intros ->; contradiction).
  pose proof (isRequiredForEnvironment_invalid T S k Ht Hv) as Hthrow.
  rewrite isPluginRequired_nonempty by assumption. repeat split.
  - destruct (Array_filter_throws _ _ _ _ Hk Hthrow) as [e' ->]. simpl. eauto.
  - intros before after Hkeys Hbefore. rewrite Hkeys.
    rewrite (Array_filter_Throw _ before after k _ Hbefore Hthrow). reflexivity.
  - exists "Invalid version passed for target ", ": ",
      ". Versions must be in semver format (major.minor.patch)".
    reflexivity.
Qed.

(** C10.  An environment whose entry in the support table is absent or falsy
    is answered [true] without a look at the target's version, valid or not:
    [isPluginRequired({chrome: "latest"}, {})] returns [true].  An error can
    only come from an environment with a truthy entry. *)
Theorem isPluginRequired_skips_validation :
  (forall (T : TargetMap) (S : SupportTable) k,
      truthy (get S k) = false -> isRequiredForEnvironment T S k = Ok true) /\
  (forall (T : TargetMap) (S : SupportTable),
      (forall k, In k (Object_keys T) -> truthy (get S k) = false) ->
      isPluginRequired T S = Ok true) /\
  (forall (T : TargetMap) (S : SupportTable) k b,
      In k (Object_keys T) -> truthy (get S k) = false ->
      isPluginRequired T S = Ok b -> b = true) /\
  isPluginRequired [("chrome", JSString "latest")] [] = Ok true /\
  (forall (T : TargetMap) (S : SupportTable) k e,
      isRequiredForEnvironment T S k = Throw e -> truthy (get S k) = true).
Proof.
  assert (Hall : forall (T : TargetMap) (S : SupportTable),
             (forall k, In k (Object_keys T) -> truthy (get S k) = false) ->
             isPluginRequired T S = Ok true).
  { intros T S Hf. destruct T as [| kv T'] eqn:HT; [reflexivity |]. rewrite <- HT in *.
    assert (Hne : T <> []) by (subst; discriminate).
    rewrite isPluginRequired_nonempty by assumption.
    destruct (Array_filter_total (isRequiredForEnvironment T S) (Object_keys T))
      as [kept Hkept].
    { intros k Hk. exists true. apply isRequiredForEnvironment_falsy. auto. }
    rewrite Hkept. simpl. f_equal. apply length_pos_In.
    exists (fst kv). apply (Array_filter_Ok _ _ _ Hkept).
    assert (Hin : In (fst kv) (Object_keys T)) by (subst; now left).
    split; [assumption |]. apply isRequiredForEnvironment_falsy. auto. }
  split; [| split; [| split; [| split]]].
  - intros T S k. apply isRequiredForEnvironment_falsy.
  - exact Hall.
  - intros T S k b Hk Hf H.
    assert (Hne : T <> []) by (intros ->; contradiction).
    rewrite isPluginRequired_nonempty in H by assumption.
    destruct (Array_filter _ _) as [kept | e] eqn:Hkept; simpl in H; [| discriminate].
    injection H as <-. apply length_pos_In. exists k.
    apply (Array_filter_Ok _ _ _ Hkept). split; [assumption |].
    now apply isRequiredForEnvironment_falsy.
  - apply Hall. intros k _. reflexivity.
  - intros T S k e H. destruct (truthy (get S k)) eqn:Ht; [reflexivity |].
    rewrite isRequiredForEnvironment_falsy in H by assumption. discriminate.
Qed.

End RequirementEvaluator.

(** The scenarios of the specification: with [chrome 55] targeted, a feature
    supported since [chrome 52] is not required, one supported since
    [chrome 60] is, and an invalid target version is reported. *)
Example isPluginRequired_scenarios :
  @isPluginRequired Sample.imports [("chrome", JSString "55.0.0")]
    [("chrome", JSString "52")] = Ok false /\
  @isPluginRequired Sample.imports [("chrome", JSString "55.0.0")]
    [("chrome", JSString "60")] = Ok true /\
  @isPluginRequired Sample.imports [("chrome", JSString "55.0.0")] [] = Ok true /\
  @isPluginRequired Sample.imports [("chrome", JSNumber 55)] [("chrome", JSNumber 50)] =
    Throw (Error (invalidVersionMessage "chrome" (JSNumber 55))).
Proof.
  repeat split.
Qed.

(** C1: the claim fails at a support table with the entry [0].  The target map
    [{chrome: "1.0.0"}] is non-empty and valid, the support table
    [{chrome: 0}] has an entry for [chrome] whose normalized version [0.0.0] is
    not greater than [1.0.0], and yet [isPluginRequired] returns [true]. *)
Lemma isPluginRequired_zero_entry :
  let T : TargetMap := [("chrome", JSString "1.0.0")] in
  let S : SupportTable := [("chrome", JSNumber 0)] in
  T <> [] /\
  @validTargets Sample.imports T /\
  lookup S "chrome" = Some (JSNumber 0) /\
  Sample.semverify_spec (JSNumber 0) = Ok (JSString "0.0.0") /\
  Sample.gt (JSString "0.0.0") (JSString "1.0.0") = Ok false /\
  @isPluginRequired Sample.imports T S = Ok true /\
  ~ (exists k, In k (Object_keys T) /\
               (lookup S k = None \/ @newerThanTarget Sample.imports T S k)).
Proof.
  cbv zeta. repeat split; try reflexivity.
  - discriminate.
  - intros k [<- | []]. reflexivity.
  - intros (k & [<- | []] & [Habsent | (v & Hs & Hg)]).
    + discriminate.
    + vm_compute in Hs. injection Hs as <-. vm_compute in Hg. discriminate.
Qed.

Lemma isPluginRequired_true_iff_witness :
  let T : TargetMap := [("chrome", JSString "55.0.0")] in
  let S : SupportTable := [("chrome", JSString "60")] in
  (@isPluginRequired Sample.imports T S = Ok true <->
   (forall k, In k (Object_keys T) -> truthy (get S k) = true ->
              exists b, @comparesAs Sample.imports T S k b) /\
   (exists k, In k (Object_keys T) /\
              (truthy (get S k) = false \/ @newerThanTarget Sample.imports T S k)))
  /\
  ((forall k, In k (Object_keys T) ->
              truthy (get S k) = true /\ @comparesAs Sample.imports T S k false) ->
   @isPluginRequired Sample.imports T S = Ok false).
Proof.
  cbv zeta.
  apply (@isPluginRequired_true_iff Sample.imports).
  - discriminate.
  - intros k [<- | []]. reflexivity.
Defined.

(** C2: the claim fails when the support table has no entry for the
    environment with the invalid version: ["latest"] is no semantic version,
    and [isPluginRequired({chrome: "latest"}, {})] returns [true]. *)
Lemma isPluginRequired_invalid_unchecked :
  let T : TargetMap := [("chrome", JSString "latest")] in
  In "chrome" (Object_keys T) /\
  Sample.valid (get T "chrome") = false /\
  @isPluginRequired Sample.imports T [] = Ok true.
Proof.
  cbv zeta. repeat split. now left.
Qed.

Lemma isPluginRequired_invalid_target_witness :
  let T : TargetMap := [("chrome", JSString "latest")] in
  let S : SupportTable := [("chrome", JSString "60")] in
  (exists e, @isPluginRequired Sample.imports T S = Throw e) /\
  @isPluginRequired Sample.imports T S =
    Throw (Error (@invalidVersionMessage "chrome" (JSString "latest"))).
Proof.
  cbv zeta.
  destruct (@isPluginRequired_invalid_target Sample.imports
              [("chrome", JSString "latest")] [("chrome", JSString "60")] "chrome")
    as (Hthrows & Hfirst & _).
  - now left.
  - reflexivity.
  - reflexivity.
  - split; [exact Hthrows |].
    apply (Hfirst [] []); [reflexivity | intros k' []].
Defined.

Lemma isPluginRequired_skips_validation_witness :
  Sample.valid (JSString "latest") = false /\
  @isPluginRequired Sample.imports [("chrome", JSString "latest")] [] = Ok true /\
  @isRequiredForEnvironment Sample.imports [("chrome", JSString "latest")] [] "chrome"
    = Ok true.
Proof.
  destruct (@isPluginRequired_skips_validation Sample.imports)
    as (Hone & _ & _ & Hexample & _).
  split; [reflexivity |]. split; [exact Hexample |].
  apply Hone. reflexivity.
Defined.

(** ** [filterItems] *)

Lemma In_addDefaultItems (excludes : JSSet) (defaultItems : list string) (result : JSSet)
  (x : string) :
  In x (addDefaultItems excludes defaultItems result) <->
  In x result \/ (In x defaultItems /\ Set_has excludes x = false).
Proof.
  unfold addDefaultItems. revert result.
  induction defaultItems as [| d ds IH]; simpl; intros result.
  - tauto.
  - rewrite IH. destruct (Set_has excludes d) eqn:Hd; simpl.
    + split; [tauto |]. intros [H | [[<- | H] Hx]]; auto. congruence.
    + rewrite In_Set_add. split.
      * intros [[-> | H] | [H Hx]]; auto.
      * intros [H | [[<- | H] Hx]]; auto.
Qed.

Lemma In_addIncludes (includes result : JSSet) (x : string) :
  In x (addIncludes includes result) <-> In x result \/ In x includes.
Proof.
  unfold addIncludes. revert result.
  induction includes as [| i more IH]; simpl; intros result.
  - tauto.
  - rewrite IH, In_Set_add. intuition congruence.
Qed.

Section FilterEngine.

Context {imports : Imports}.

Lemma filterItem_loop_Ok (excludes : JSSet) (targets : TargetMap) (list : Catalog) :
  forall acc result,
    foldM (filterItem excludes targets) list acc = Ok result ->
    forall x,
      In x result <->
      In x acc \/
      exists plugin, In (x, plugin) list /\ Set_has excludes x = false /\
                     isPluginRequired targets plugin = Ok true.
Proof.
  induction list as [| [item plugin] list IH]; intros acc result H x; cbn [foldM] in H.
  - injection H as <-. simpl. split; [auto | intros [H | (p & [] & _)]; assumption].
  - destruct (filterItem excludes targets acc (item, plugin)) as [acc' | e] eqn:Hstep;
      cbn [bind] in H; [| discriminate].
    rewrite (IH _ _ H x). clear IH H. unfold filterItem in Hstep. cbn [In].
    destruct (Set_has excludes item) eqn:Hex; cbn [negb bind] in Hstep.
    + injection Hstep as <-. split.
      * intros [H | (p & Hin & Hx & Hreq)]; eauto 6.
      * intros [H | (p & [Heq | Hin] & Hx & Hreq)]; eauto 6.
        injection Heq as -> ->. congruence.
    + destruct (isPluginRequired targets plugin) as [[|] | e] eqn:Hreq; cbn [bind] in Hstep;
        [| | discriminate]; injection Hstep as <-.
      * rewrite In_Set_add. split.
        -- intros [[-> | H] | (p & Hin & Hx & Hp)]; eauto 7.
        -- intros [H | (p & [Heq | Hin] & Hx & Hp)]; eauto 7.
           injection Heq as -> ->. auto.
      * split.
        -- intros [H | (p & Hin & Hx & Hp)]; eauto 7.
        -- intros [H | (p & [Heq | Hin] & Hx & Hp)]; eauto 7.
           injection Heq as -> ->. congruence.
Qed.

Lemma filterItem_loop_total (excludes : JSSet) (targets : TargetMap) (list : Catalog) :
  answersFor list excludes targets ->
  forall acc, exists result, foldM (filterItem excludes targets) list acc = Ok result.
Proof.
  unfold answersFor.
  induction list as [| [item plugin] list IH]; intros Hans acc; cbn [foldM].
  - eauto.
  - assert (Hstep : exists acc', filterItem excludes targets acc (item, plugin) = Ok acc').
    { unfold filterItem. destruct (Set_has excludes item) eqn:Hex; cbn [negb bind]; [eauto |].
      destruct (Hans item plugin (or_introl eq_refl) Hex) as [b ->]. cbn [bind]. eauto. }
    destruct Hstep as [acc' ->]. cbn [bind]. apply IH. intros i p Hin. apply Hans. now right.
Qed.

(** The result of [filterItems], member by member: the catalog entries that
    are required and not excluded, the default items that are not excluded,
    and the included names. *)
Lemma filterItems_Ok (list : Catalog) (includes excludes : JSSet) (targets : TargetMap)
  (defaultItems : option (Datatypes.list string)) (result : JSSet) :
  filterItems list includes excludes targets defaultItems = Ok result ->
  forall x,
    In x result <->
    (exists plugin, In (x, plugin) list /\ Set_has excludes x = false /\
                    isPluginRequired targets plugin = Ok true) \/
    (exists defaults, defaultItems = Some defaults /\ In x defaults /\
                      Set_has excludes x = false) \/
    In x includes.
Proof.
  unfold filterItems. intros H x.
  destruct (foldM _ _ _) as [r0 | e] eqn:Hloop; simpl in H; [| discriminate].
  injection H as <-. rewrite In_addIncludes.
  pose proof (filterItem_loop_Ok _ _ _ _ _ Hloop x) as Hr0. simpl in Hr0.
  destruct defaultItems as [defaults |].
  - rewrite In_addDefaultItems, Hr0. split.
    + intros [[[[] | H] | [Hd Hx]] | H]; eauto 7.
    + intros [H | [(d & Heq & Hd & Hx) | H]]; auto.
      injection Heq as <-. auto.
  - rewrite Hr0. split.
    + intros [[[] | H] | H]; auto.
    + intros [H | [(d & Heq & _) | H]]; auto. discriminate.
Qed.

Lemma filterItems_total (list : Catalog) (includes excludes : JSSet) (targets : TargetMap)
  (defaultItems : option (Datatypes.list string)) :
  answersFor list excludes targets ->
  exists result, filterItems list includes excludes targets defaultItems = Ok result.
Proof.
  intros Hans. unfold filterItems.
  destruct (filterItem_loop_total _ _ _ Hans []) as [r0 ->]. simpl. eauto.
Qed.

(** C3.  Every member of the include set is in the result of [filterItems],
    also when it is in the exclude set or unknown to the catalog; and
    [filterItems] does return a set whenever the evaluator answers for the
    catalog entries that are not excluded. *)
Theorem filterItems_include_wins (list : Catalog) (includes excludes : JSSet)
  (targets : TargetMap) (defaultItems : option (Datatypes.list string)) (n : string) :
  In n includes ->
  (forall result,
      filterItems list includes excludes targets defaultItems = Ok result -> In n result) /\
  (answersFor list excludes targets ->
   exists result,
     filterItems list includes excludes targets defaultItems = Ok result /\ In n result).
Proof.
  intros Hn.
  assert (Hpartial : forall result,
             filterItems list includes excludes targets defaultItems = Ok result ->
             In n result).
  { intros result H. apply (filterItems_Ok _ _ _ _ _ _ H). auto. }
  split; [exact Hpartial |].
  intros Hans. destruct (filterItems_total list includes excludes targets defaultItems Hans)
    as [result H].
  exists result. split; [exact H | exact (Hpartial _ H)].
Qed.

(** C5.  With a default set supplied, every default item that is not excluded
    is in the result of [filterItems], whatever the targets and whatever the
    evaluator says of the item's support table; line 112 adds exactly the
    default items that are not in the exclude set. *)
Theorem filterItems_defaults (list : Catalog) (includes excludes : JSSet)
  (targets : TargetMap) (defaultItems : Datatypes.list string) (d : string) :
  In d defaultItems ->
  Set_has excludes d = false ->
  (forall result,
      filterItems list includes excludes targets (Some defaultItems) = Ok result ->
      In d result) /\
  (answersFor list excludes targets ->
   exists result,
     filterItems list includes excludes targets (Some defaultItems) = Ok result /\
     In d result) /\
  (forall result x,
      In x (addDefaultItems excludes defaultItems result) <->
      In x result \/ (In x defaultItems /\ ~ In x excludes)).
Proof.
  intros Hd Hex.
  assert (Hpartial : forall result,
             filterItems list includes excludes targets (Some defaultItems) = Ok result ->
             In d result).
  { intros result H. apply (filterItems_Ok _ _ _ _ _ _ H). right. left. eauto. }
  split; [exact Hpartial |]. split.
  - intros Hans.
    destruct (filterItems_total list includes excludes targets (Some defaultItems) Hans)
      as [result H].
    exists result. split; [exact H | exact (Hpartial _ H)].
  - intros result x. rewrite In_addDefaultItems, Set_has_false. reflexivity.
Qed.

End FilterEngine.

Lemma sample_answersFor :
  @answersFor Sample.imports Sample.plugins_json ["my-plugin"]
    [("chrome", JSString "55.0.0")].
Proof.
  intros item plugin [H | [H | []]] _; injection H as <- <-; eexists; reflexivity.
Defined.

Lemma filterItems_include_wins_witness :
  In "my-plugin" ["transform-async-to-generator"; "my-plugin"] /\
  exists result,
    @filterItems Sample.imports Sample.plugins_json
      ["transform-async-to-generator"; "my-plugin"] ["my-plugin"]
      [("chrome", JSString "55.0.0")] None = Ok result /\
    In "my-plugin" result.
Proof.
  assert (Hin : In "my-plugin" ["transform-async-to-generator"; "my-plugin"])
    by (right; left; reflexivity).
  split; [exact Hin |].
  exact (proj2 (@filterItems_include_wins Sample.imports Sample.plugins_json
                  ["transform-async-to-generator"; "my-plugin"] ["my-plugin"]
                  [("chrome", JSString "55.0.0")] None "my-plugin" Hin)
               sample_answersFor).
Defined.

(** The default item [es6.promise] stays although the evaluator says it is
    not required for [chrome 55]. *)
Lemma filterItems_defaults_witness :
  @isPluginRequired Sample.imports [("chrome", JSString "55.0.0")]
    [("chrome", JSString "51")] = Ok false /\
  exists result,
    @filterItems Sample.imports [("es6.promise", [("chrome", JSString "51")])]
      [] ["my-plugin"] [("chrome", JSString "55.0.0")] (Some ["es6.promise"]) = Ok result /\
    In "es6.promise" result.
Proof.
  split; [reflexivity |].
  apply (@filterItems_defaults Sample.imports [("es6.promise", [("chrome", JSString "51")])]
           [] ["my-plugin"] [("chrome", JSString "55.0.0")] ["es6.promise"] "es6.promise").
  - left. reflexivity.
  - reflexivity.
  - intros item plugin [H | []] _. injection H as <- <-. eexists. reflexivity.
Defined.

(** ** [getPlatformSpecificDefaultFor] *)

Section DefaultSelector.

Context {imports : Imports}.

(** C6.  The default set is returned when the target map is empty or has a
    key other than [node]; [null] is returned exactly when the map is not
    empty and every key is [node]. *)
Theorem getPlatformSpecificDefaultFor_spec :
  (forall T : TargetMap,
      T = [] \/ (exists k, In k (Object_keys T) /\ k <> "node") ->
      getPlatformSpecificDefaultFor T = Some defaultWebIncludes) /\
  (forall T : TargetMap,
      getPlatformSpecificDefaultFor T = None <->
      T <> [] /\ forall k, In k (Object_keys T) -> k = "node") /\
  getPlatformSpecificDefaultFor [] <> None /\
  getPlatformSpecificDefaultFor [("node", JSString "8.0.0")] = None /\
  getPlatformSpecificDefaultFor [("node", JSString "8.0.0"); ("chrome", JSString "60.0.0")]
    <> None.
Proof.
  assert (Hweb : forall T : TargetMap,
             existsb (fun name => negb (name =? "node")) (Object_keys T) = true <->
             exists k, In k (Object_keys T) /\ k <> "node").
  { intros T. rewrite existsb_exists. split; intros (k & Hk & Hne); exists k; split; auto.
    - intros ->. now rewrite String.eqb_refl in Hne.
    - apply negb_true_iff. now apply String.eqb_neq. }
  split; [| split; [| split; [| split]]].
  - intros T [-> | Hk]; [reflexivity |].
    unfold getPlatformSpecificDefaultFor. apply Hweb in Hk. rewrite Hk.
    now rewrite orb_true_r.
  - intros T. unfold getPlatformSpecificDefaultFor.
    destruct T as [| kv T'] eqn:HT; [simpl; split; [discriminate | intros [[] _]; reflexivity] |].
    rewrite <- HT. replace (length (Object_keys T) =? 0)%nat with false by (subst; reflexivity).
    simpl orb.
    destruct (existsb _ (Object_keys T)) eqn:Hex.
    + split; [discriminate |]. intros [_ Hall]. apply Hweb in Hex as (k & Hk & Hne).
      elim Hne. auto.
    + split; [| reflexivity]. intros _. split; [subst; discriminate |].
      intros k Hk. destruct (String.eqb_spec k "node") as [-> | Hne]; [reflexivity |].
      assert (Htrue : existsb (fun name => negb (name =? "node")) (Object_keys T) = true)
        by (apply Hweb; eauto).
      congruence.
  - discriminate.
  - reflexivity.
  - discriminate.
Qed.

End DefaultSelector.

Lemma getPlatformSpecificDefaultFor_spec_witness :
  @getPlatformSpecificDefaultFor Sample.imports [("chrome", JSString "60.0.0")]
    = Some ["web.timers"; "web.immediate"; "web.dom.iterable"].
Proof.
  apply (proj1 (@getPlatformSpecificDefaultFor_spec Sample.imports)).
  right. exists "chrome". split; [now left | discriminate].
Defined.

(** ** [transformIncludesAndExcludes] *)

Lemma stripPrefix_Some (p s r : string) : stripPrefix p s = Some r <-> s = p ++ r.
Proof.
  revert s. induction p as [| a p IH]; intros s; simpl.
  - split; [intros H; now injection H | intros ->; reflexivity].
  - destruct s as [| b s]; [split; discriminate |].
    destruct (Ascii.eqb_spec a b) as [-> | Hne].
    + rewrite IH. split; [intros ->; reflexivity | intros H; now injection H].
    + split; [discriminate | intros H; injection H; congruence].
Qed.

Lemma dropDigits_split (s : string) :
  exists digits, s = digits ++ dropDigits s /\ onlyDigits digits.
Proof.
  induction s as [| c s (digits & Hs & Hd)]; simpl.
  - exists EmptyString. split; [reflexivity | intros c []].
  - destruct (isDigit c) eqn:Hc.
    + exists (String c digits). split; [simpl; congruence |].
      intros c' [<- | Hin]; auto.
    + exists EmptyString. split; [reflexivity | intros c' []].
Qed.

Lemma dropDigits_app (digits : string) (c : ascii) (rest : string) :
  onlyDigits digits -> isDigit c = false ->
  dropDigits (digits ++ String c rest) = String c rest.
Proof.
  intros Hd Hc. induction digits as [| d digits IH]; simpl.
  - now rewrite Hc.
  - rewrite (Hd d (or_introl eq_refl)). apply IH.
    intros c' Hin. apply Hd. now right.
Qed.

Lemma startsWithDot_true (s : string) :
  startsWithDot s = true <-> exists rest, s = String "." rest.
Proof.
  destruct s as [| c s]; simpl.
  - split; [discriminate | intros [rest H]; discriminate].
  - rewrite Ascii.eqb_eq. split.
    + intros ->. eauto.
    + intros [rest H]. now injection H.
Qed.

(** The matcher accepts the names the specification describes. *)
Lemma matchesBuiltIn_spec (name : string) : matchesBuiltIn name = true <-> BuiltInName name.
Proof.
  unfold matchesBuiltIn, BuiltInName. rewrite orb_true_iff. split.
  - intros [Hes | Hweb].
    + left. destruct (stripPrefix "es" name) as [[| d rest] |] eqn:Hp; try discriminate.
      apply andb_true_iff in Hes as [Hd Hdot].
      apply stripPrefix_Some in Hp. apply startsWithDot_true in Hdot as [tail Hdot].
      destruct (dropDigits_split rest) as (digits & Hrest & Hdigits).
      exists (String d digits), tail. split; [discriminate |]. split.
      * intros c [<- | Hin]; auto.
      * rewrite Hp, Hrest, Hdot. reflexivity.
    + right. destruct (stripPrefix "web" name) as [rest |] eqn:Hp; [| discriminate].
      apply stripPrefix_Some in Hp. apply startsWithDot_true in Hweb as [tail ->].
      exists tail. rewrite Hp. reflexivity.
  - intros [(digits & rest & Hne & Hdigits & ->) | (rest & ->)].
    + left. destruct digits as [| d digits]; [congruence |].
      assert (Hp : stripPrefix "es" ("es" ++ String d digits ++ "." ++ rest)
                   = Some (String d (digits ++ String "." rest))) by reflexivity.
      rewrite Hp. rewrite (Hdigits d (or_introl eq_refl)).
      rewrite dropDigits_app; [reflexivity | | reflexivity].
      intros c Hin. apply Hdigits. now right.
    + right. reflexivity.
Qed.

Lemma transformIncludesAndExcludes_loop (opts : list string) :
  forall acc : IncludesAndExcludes,
    let result :=
      fold_left
        (fun result opt =>
           if matchesBuiltIn opt
           then {| all := all result; plugins := plugins result;
                   builtIns := Set_add opt (builtIns result) |}
           else {| all := all result; plugins := Set_add opt (plugins result);
                   builtIns := builtIns result |})
        opts acc in
    all result = all acc /\
    (forall n, In n (builtIns result) <->
               In n (builtIns acc) \/ (In n opts /\ matchesBuiltIn n = true)) /\
    (forall n, In n (plugins result) <->
               In n (plugins acc) \/ (In n opts /\ matchesBuiltIn n = false)).
Proof.
  induction opts as [| opt opts IH]; intros acc; cbn zeta.
  - simpl. repeat split; tauto.
  - cbn [fold_left]. cbn zeta in IH.
    destruct (matchesBuiltIn opt) eqn:Hopt;
      match goal with
      | |- context [fold_left ?f opts ?a] => destruct (IH a) as (Hall & Hb & Hp)
      end;
      cbn [all plugins builtIns] in *; split; [assumption | split | assumption | split];
      intros n; rewrite ?Hb, ?Hp, ?In_Set_add; cbn [In]; split;
      intuition (subst; auto; congruence).
Qed.

(** C7.  A name goes to [builtIns] exactly when it starts with [es], one or
    more digits and a dot, or with [web.]; every other name goes to [plugins];
    no name is in both; [all] is the input. *)
Theorem transformIncludesAndExcludes_partition (opts : list string) :
  let result := transformIncludesAndExcludes opts in
  (forall n, In n (builtIns result) <-> In n opts /\ BuiltInName n) /\
  (forall n, In n (plugins result) <-> In n opts /\ ~ BuiltInName n) /\
  (forall n, ~ (In n (plugins result) /\ In n (builtIns result))) /\
  all result = opts /\
  builtIns (transformIncludesAndExcludes
              ["es6.promise"; "transform-arrow-functions"; "web.timers"])
    = ["es6.promise"; "web.timers"] /\
  plugins (transformIncludesAndExcludes
             ["es6.promise"; "transform-arrow-functions"; "web.timers"])
    = ["transform-arrow-functions"].
Proof.
  cbn zeta.
  destruct (transformIncludesAndExcludes_loop opts {| all := opts; plugins := []; builtIns := [] |})
    as (Hall & Hb & Hp).
  fold (transformIncludesAndExcludes opts) in Hall, Hb, Hp.
  cbn [all plugins builtIns] in Hall, Hb, Hp.
  assert (Hbuilt : forall n, In n (builtIns (transformIncludesAndExcludes opts)) <->
                             In n opts /\ BuiltInName n).
  { intros n. rewrite Hb, <- matchesBuiltIn_spec. simpl. tauto. }
  assert (Hplug : forall n, In n (plugins (transformIncludesAndExcludes opts)) <->
                            In n opts /\ ~ BuiltInName n).
  { intros n. rewrite Hp, <- matchesBuiltIn_spec. simpl.
    destruct (matchesBuiltIn n); intuition congruence. }
  split; [exact Hbuilt |]. split; [exact Hplug |]. split; [| split; [exact Hall |]].
  - intros n [H1 H2]. apply Hplug in H1. apply Hbuilt in H2. tauto.
  - split; reflexivity.
Qed.

(** ** The state-and-exception monad *)

Lemma bindM_Ok {A B} (c : M A) (k : A -> M B) (w w' : World) (b : B) :
  bindM c k w = (Ok b, w') ->
  exists a w1, c w = (Ok a, w1) /\ k a w1 = (Ok b, w').
Proof.
  unfold bindM. destruct (c w) as [[a | e] w1]; [eauto | discriminate].
Qed.

Lemma lift_Ok {A} (r : outcome A) (w w' : World) (a : A) :
  lift r w = (Ok a, w') -> r = Ok a /\ w' = w.
Proof.
  unfold lift. intros H. injection H as -> ->. auto.
Qed.

Lemma heap_after_bindM {A B} (c : M A) (k : A -> M B) (w : World) :
  (forall a, heap_stable (k a)) ->
  heap (snd (bindM c k w)) = heap (snd (c w)).
Proof.
  intros Hk. unfold bindM. destruct (c w) as [[a | e] w1]; simpl; [apply Hk | reflexivity].
Qed.

Lemma heap_stable_bindM {A B} (c : M A) (k : A -> M B) :
  heap_stable c -> (forall a, heap_stable (k a)) -> heap_stable (bindM c k).
Proof.
  intros Hc Hk w. rewrite heap_after_bindM by assumption. apply Hc.
Qed.

Lemma heap_stable_ret {A} (a : A) : heap_stable (ret a).
Proof. intros w. reflexivity. Qed.

Lemma heap_stable_lift {A} (r : outcome A) : heap_stable (lift r).
Proof. intros w. reflexivity. Qed.

Lemma heap_stable_console_log (line : string) : heap_stable (console_log line).
Proof. intros w. reflexivity. Qed.

Lemma heap_stable_read_hasBeenLogged : heap_stable read_hasBeenLogged.
Proof. intros w. reflexivity. Qed.

Lemma heap_stable_write_hasBeenLogged (b : bool) : heap_stable (write_hasBeenLogged b).
Proof. intros w. reflexivity. Qed.

Lemma heap_stable_read_object (r : loc) : heap_stable (read_object r).
Proof. intros w. reflexivity. Qed.

Lemma heap_stable_forEachM {A} (f : A -> M unit) (xs : list A) :
  (forall x, heap_stable (f x)) -> heap_stable (forEachM f xs).
Proof.
  intros Hf. induction xs as [| x xs IH]; simpl.
  - apply heap_stable_ret.
  - apply heap_stable_bindM; auto.
Qed.

Create HintDb heap discriminated.

#[local] Hint Resolve heap_stable_ret heap_stable_lift heap_stable_console_log
  heap_stable_read_hasBeenLogged heap_stable_write_hasBeenLogged
  heap_stable_read_object : heap.

(** Decomposes a computation into its steps and closes each with [heap]. *)
Ltac heap_steps :=
  repeat first
    [ progress intros
    | apply heap_stable_bindM
    | apply heap_stable_forEachM
    | match goal with
      | |- heap_stable (if ?b then _ else _) => destruct b
      | |- heap_stable (match ?o with Some _ => _ | None => _ end) => destruct o
      end
    | solve [auto with heap] ].

Lemma lookup_delete_same {V} (o : JSObject V) (k : string) : lookup (delete o k) k = None.
Proof.
  induction o as [| [k' v] o IH]; simpl; [reflexivity |].
  destruct (String.eqb_spec k' k) as [-> | Hne]; simpl; [assumption |].
  destruct (String.eqb_spec k' k); [contradiction | assumption].
Qed.

Lemma lookup_delete_other {V} (o : JSObject V) (k k' : string) :
  k' <> k -> lookup (delete o k) k' = lookup o k'.
Proof.
  intros Hne. induction o as [| [k0 v] o IH]; simpl; [reflexivity |].
  destruct (String.eqb_spec k0 k) as [-> | Hk]; simpl.
  - destruct (String.eqb_spec k k'); [congruence | assumption].
  - destruct (String.eqb_spec k0 k'); [reflexivity | assumption].
Qed.

Lemma In_Object_keys {V} (o : JSObject V) (k : string) :
  In k (Object_keys o) <-> exists v, In (k, v) o.
Proof.
  unfold Object_keys. rewrite in_map_iff. split.
  - intros ([k' v] & <- & Hin). eauto.
  - intros [v Hin]. exists (k, v). auto.
Qed.

Section Orchestration.

Context {imports : Imports}.

Lemma heap_stable_logPlugin (plugin : string) (targets : TargetMap) (list : Catalog) :
  heap_stable (logPlugin plugin targets list).
Proof. unfold logPlugin. heap_steps. Qed.

Lemma heap_stable_logSummary (n : NormalizedOptions) (r : Resolution) :
  heap_stable (logSummary n r).
Proof. unfold logSummary. heap_steps. Qed.

Lemma heap_stable_buildPreset_emit (n : NormalizedOptions) (r : Resolution) :
  heap_stable (buildPreset_emit n r).
Proof.
  unfold buildPreset_emit. apply heap_stable_bindM; [apply heap_stable_logSummary |].
  heap_steps.
Qed.

Lemma heap_stable_callGetTargets (optionsTargets : option loc) :
  heap_stable (callGetTargets optionsTargets).
Proof. unfold callGetTargets. heap_steps. Qed.

(** After the [uglify] step, [buildPreset] writes to no object. *)
Lemma heap_after_buildPreset_resolve (n : NormalizedOptions) (w : World) :
  heap (snd (buildPreset_resolve n w)) = heap (snd (stripUglifyTarget (optionsTargets n) w)).
Proof.
  unfold buildPreset_resolve. apply heap_after_bindM. intros h.
  apply heap_stable_bindM; [apply heap_stable_callGetTargets |]. heap_steps.
Qed.

Lemma heap_after_buildPreset {BabelApi : Type} (context : BabelApi) (opts : RawOptions)
  (n : NormalizedOptions) (w : World) :
  normalizeOptions opts = Ok n ->
  heap (snd (buildPreset context opts w)) = heap (snd (stripUglifyTarget (optionsTargets n) w)).
Proof.
  intros Hn. unfold buildPreset. rewrite Hn.
  change (bindM (lift (Ok n)) ?k w) with (k n w). cbv beta.
  rewrite heap_after_bindM by (intros r; apply heap_stable_buildPreset_emit).
  apply heap_after_buildPreset_resolve.
Qed.

End Orchestration.

Section TopLevel.

Context {imports : Imports}.

(** What the local variables of [buildPreset] hold once the resolution
    (lines 132-171) has completed. *)
Lemma buildPreset_resolve_Ok (n : NormalizedOptions) (w w' : World) (r : Resolution) :
  buildPreset_resolve n w = (Ok r, w') ->
  exists w1,
    stripUglifyTarget (optionsTargets n) w = (Ok (hasUglifyTarget r), w1) /\
    callGetTargets (optionsTargets n) w1 = (Ok (targets r), w') /\
    include r = transformIncludesAndExcludes (optionsInclude n) /\
    exclude r = transformIncludesAndExcludes (optionsExclude n) /\
    transformTargets r =
      effectiveTransformTargets (useSyntax n) (hasUglifyTarget r) (targets r) /\
    filterItems pluginList (plugins (include r)) (plugins (exclude r)) (transformTargets r)
      None = Ok (transformations r).
Proof.
  unfold buildPreset_resolve. intros H.
  apply bindM_Ok in H as (h & w1 & Hstrip & H).
  apply bindM_Ok in H as (t & w2 & Htargets & H).
  apply bindM_Ok in H as (tr & w3 & Hfilter & H).
  apply lift_Ok in Hfilter as [Hfilter ->].
  exists w1.
  destruct (truthy (useBuiltIns n)).
  - apply bindM_Ok in H as (p & w4 & Hpoly & H).
    apply lift_Ok in Hpoly as [_ ->].
    unfold ret in H. injection H as <- <-. cbn. auto 7.
  - unfold ret in H. injection H as <- <-. cbn. auto 7.
Qed.

(** With no targets every catalog entry that is not excluded is selected. *)
Lemma filterItems_no_targets (list : Catalog) (includes excludes : JSSet)
  (defaultItems : option (Datatypes.list string)) :
  exists result,
    filterItems list includes excludes [] defaultItems = Ok result /\
    forall x,
      In x result <->
      (In x (Object_keys list) /\ ~ In x excludes) \/
      (exists defaults, defaultItems = Some defaults /\ In x defaults /\ ~ In x excludes) \/
      In x includes.
Proof.
  destruct (filterItems_total list includes excludes [] defaultItems) as [result H].
  { intros item plugin _ _. exists true. reflexivity. }
  exists result. split; [exact H |]. intros x.
  rewrite (filterItems_Ok _ _ _ _ _ _ H x), In_Object_keys.
  split.
  - intros [(p & Hin & Hx & _) | [(d & Hd & Hin & Hx) | Hi]].
    + left. split; [eauto | now apply Set_has_false].
    + right. left. exists d. repeat split; auto. now apply Set_has_false.
    + auto.
  - intros [[[p Hin] Hx] | [(d & Hd & Hin & Hx) | Hi]].
    + left. exists p. repeat split; auto. now apply Set_has_false.
    + right. left. exists d. repeat split; auto. now apply Set_has_false.
    + auto.
Qed.

Lemma buildPreset_emit_Ok (n : NormalizedOptions) (r : Resolution) (w w' : World)
  (p : Preset.t) :
  buildPreset_emit n r w = (Ok p, w') ->
  exists injected, Preset.plugins p = (transformPlugins n r ++ injected)%list.
Proof.
  unfold buildPreset_emit. intros H.
  apply bindM_Ok in H as (u1 & w1 & _ & H). cbv beta zeta in H.
  apply bindM_Ok in H as (u2 & w2 & _ & H). cbv beta in H.
  destruct (JSValue_eqb (useBuiltIns n) (JSString "usage")).
  - unfold ret in H. injection H as <- _. simpl. eauto.
  - destruct (JSValue_eqb (useBuiltIns n) (JSString "entry")).
    + unfold ret in H. injection H as <- _. simpl. eauto.
    + apply bindM_Ok in H as (u3 & w3 & _ & H).
      unfold ret in H. injection H as <- _. simpl. exists []. now rewrite app_nil_r.
Qed.

Lemma buildPreset_Ok {BabelApi : Type} (context : BabelApi) (opts : RawOptions)
  (w w' : World) (p : Preset.t) :
  buildPreset context opts w = (Ok p, w') ->
  exists n r w1,
    normalizeOptions opts = Ok n /\
    buildPreset_resolve n w = (Ok r, w1) /\
    buildPreset_emit n r w1 = (Ok p, w').
Proof.
  unfold buildPreset. intros H.
  apply bindM_Ok in H as (n & w0 & Hn & H). apply lift_Ok in Hn as [Hn ->].
  apply bindM_Ok in H as (r & w1 & Hr & H). eauto 7.
Qed.

Lemma In_transformPlugins (n : NormalizedOptions) (r : Resolution) (name : string) :
  In name (transformations r) ->
  In (require ("babel-plugin-" ++ name), LooseOptions (loose n)) (transformPlugins n r).
Proof.
  intros Hin. unfold transformPlugins. apply in_or_app. right.
  apply (in_map (fun pluginName => (require ("babel-plugin-" ++ pluginName),
                                    LooseOptions (loose n)))).
  exact Hin.
Qed.

(** C8, amended.  When [useSyntax] is false the effective target map of the
    transformation filtering is empty, whatever the targets, and the resolved
    transformation set holds every transformation of the plugin catalog that
    is not excluded (and the included plugin names, and nothing else); each of
    them is among the plugins [buildPreset] returns. *)
Theorem buildPreset_useSyntax_false (n : NormalizedOptions) :
  truthy (useSyntax n) = false ->
  let include := transformIncludesAndExcludes (optionsInclude n) in
  let exclude := transformIncludesAndExcludes (optionsExclude n) in
  (forall hasUglifyTarget targets,
      effectiveTransformTargets (useSyntax n) hasUglifyTarget targets = []) /\
  exists selected,
    filterItems pluginList (plugins include) (plugins exclude) [] None = Ok selected /\
    (forall name,
        In name (Object_keys pluginList) -> ~ In name (plugins exclude) ->
        In name selected) /\
    (forall name,
        In name selected <->
        (In name (Object_keys pluginList) /\ ~ In name (plugins exclude)) \/
        In name (plugins include)) /\
    (forall w w' r,
        buildPreset_resolve n w = (Ok r, w') ->
        transformTargets r = [] /\ transformations r = selected) /\
    (forall (BabelApi : Type) (context : BabelApi) opts w w' p,
        normalizeOptions opts = Ok n ->
        buildPreset context opts w = (Ok p, w') ->
        forall name,
          In name selected ->
          In (require ("babel-plugin-" ++ name), LooseOptions (loose n)) (Preset.plugins p)).
Proof.
  intros Hsyntax include exclude.
  assert (Hempty : forall hasUglifyTarget targets,
             effectiveTransformTargets (useSyntax n) hasUglifyTarget targets = []).
  { intros h t. unfold effectiveTransformTargets. now rewrite Hsyntax. }
  split; [exact Hempty |].
  destruct (filterItems_no_targets pluginList (plugins include) (plugins exclude) None)
    as (selected & Hselected & Hiff).
  assert (Hchar : forall name,
             In name selected <->
             (In name (Object_keys pluginList) /\ ~ In name (plugins exclude)) \/
             In name (plugins include)).
  { intros name. rewrite Hiff. split.
    - intros [Hc | [(d & Hd & _) | Hi]]; auto. discriminate.
    - intros [Hc | Hi]; auto. }
  assert (Hresolve : forall w w' r,
             buildPreset_resolve n w = (Ok r, w') ->
             transformTargets r = [] /\ transformations r = selected).
  { intros w w' r H.
    apply buildPreset_resolve_Ok in H as (w1 & _ & _ & Hinc & Hexc & Htt & Hfilter).
    rewrite Hempty in Htt. rewrite Htt, Hinc, Hexc in Hfilter.
    fold include exclude in Hfilter. split; [exact Htt | congruence]. }
  exists selected. split; [exact Hselected |]. split; [| split; [exact Hchar |]].
  - intros name Hcat Hex. apply Hchar. auto.
  - split; [exact Hresolve |].
    intros BabelApi context opts w w' p Hn H name Hname.
    apply buildPreset_Ok in H as (n' & r & w1 & Hn' & Hr & He).
    assert (n' = n) as -> by congruence.
    destruct (Hresolve _ _ _ Hr) as [_ Htr].
    destruct (buildPreset_emit_Ok _ _ _ _ _ He) as [injected ->].
    apply in_or_app. left. apply In_transformPlugins. now rewrite Htr.
Qed.

Lemma stripUglifyTarget_truthy (target : loc) (w : World) :
  truthy (get (heap w target) "uglify") = true ->
  fst (stripUglifyTarget (Some target) w) = Ok true /\
  heap (snd (stripUglifyTarget (Some target) w)) =
    (fun r' => if Nat.eqb r' target then delete (heap w target) "uglify" else heap w r').
Proof.
  intros H. unfold stripUglifyTarget, bindM, read_object. rewrite H. split; reflexivity.
Qed.

Lemma stripUglifyTarget_falsy (target : loc) (w : World) :
  truthy (get (heap w target) "uglify") = false ->
  stripUglifyTarget (Some target) w = (Ok false, w).
Proof.
  intros H. unfold stripUglifyTarget, bindM, read_object. now rewrite H.
Qed.

(** With a falsy or absent [uglify] entry [buildPreset] writes to no object. *)
Lemma buildPreset_uglify_falsy {BabelApi : Type} (context : BabelApi) (opts : RawOptions)
  (n : NormalizedOptions) (target : loc) (w : World) :
  normalizeOptions opts = Ok n ->
  optionsTargets n = Some target ->
  truthy (get (heap w target) "uglify") = false ->
  heap (snd (buildPreset context opts w)) = heap w.
Proof.
  intros Hn Htarget Huglify.
  rewrite (heap_after_buildPreset context opts n w Hn), Htarget.
  now rewrite stripUglifyTarget_falsy.
Qed.

(** C9, amended.  When the caller's targets object has a truthy [uglify]
    entry, [buildPreset] deletes the key from that very object, leaves its
    other keys and every other object as they were, and uses the empty map as
    the effective target map of the transformation filtering, whatever
    [useSyntax] is. *)
Theorem buildPreset_uglify_target {BabelApi : Type} (context : BabelApi) (opts : RawOptions)
  (n : NormalizedOptions) (target : loc) (w : World) :
  normalizeOptions opts = Ok n ->
  optionsTargets n = Some target ->
  truthy (get (heap w target) "uglify") = true ->
  let after := snd (buildPreset context opts w) in
  heap after target = delete (heap w target) "uglify" /\
  lookup (heap after target) "uglify" = None /\
  (forall k, k <> "uglify" -> lookup (heap after target) k = lookup (heap w target) k) /\
  (forall other, other <> target -> heap after other = heap w other) /\
  (forall r w1,
      buildPreset_resolve n w = (Ok r, w1) ->
      hasUglifyTarget r = true /\ transformTargets r = []).
Proof.
  intros Hn Htarget Huglify after.
  destruct (stripUglifyTarget_truthy target w Huglify) as [Hflag Hheap].
  assert (Hafter : heap after =
            (fun r' => if Nat.eqb r' target then delete (heap w target) "uglify"
                       else heap w r')).
  { unfold after. rewrite (heap_after_buildPreset context opts n w Hn), Htarget.
    exact Hheap. }
  assert (Hobject : heap after target = delete (heap w target) "uglify").
  { rewrite Hafter. now rewrite Nat.eqb_refl. }
  split; [exact Hobject |]. split; [| split; [| split]].
  - rewrite Hobject. apply lookup_delete_same.
  - intros k Hk. rewrite Hobject. now apply lookup_delete_other.
  - intros other Hother. rewrite Hafter.
    destruct (Nat.eqb_spec other target); [contradiction | reflexivity].
  - intros r w1 H.
    apply buildPreset_resolve_Ok in H as (w2 & Hstrip & _ & _ & _ & Htt & _).
    rewrite Htarget in Hstrip. rewrite Hstrip in Hflag. simpl in Hflag.
    injection Hflag as Hflag. split; [exact Hflag |].
    rewrite Htt, Hflag. unfold effectiveTransformTargets. now rewrite orb_true_r.
Qed.

End TopLevel.

(** C8: the claim fails for an excluded transformation.  With
    [useSyntax: false] and [exclude: ["transform-async-to-generator"]] the
    effective target map is empty, and the catalog's
    [transform-async-to-generator] is not in the resolved set nor among the
    plugins [buildPreset] returns. *)
Lemma buildPreset_useSyntax_false_excluded :
  let n := Sample.options ["transform-async-to-generator"] (JSBool false) in
  let w := Sample.world [("chrome", JSString "55.0.0")] in
  In "transform-async-to-generator" (Object_keys (@pluginList Sample.imports)) /\
  (exists r,
      fst (@buildPreset_resolve Sample.imports n w) = Ok r /\
      transformTargets r = [] /\
      transformations r = ["transform-exponentiation-operator"] /\
      ~ In "transform-async-to-generator" (transformations r)) /\
  fst (@buildPreset Sample.imports unit tt n w) =
    Ok {| Preset.plugins :=
            [(require "babel-plugin-transform-es2015-modules-commonjs",
              LooseOptions (JSBool false));
             (require "babel-plugin-transform-exponentiation-operator",
              LooseOptions (JSBool false))] |}.
Proof.
  cbv zeta. split; [right; left; reflexivity |]. split; [| reflexivity].
  eexists. split; [reflexivity |]. split; [reflexivity |]. split; [reflexivity |].
  intros [H | []]. discriminate.
Qed.

Lemma buildPreset_useSyntax_false_witness :
  exists selected,
    @filterItems Sample.imports Sample.plugins_json [] [] [] None = Ok selected /\
    In "transform-exponentiation-operator" selected /\
    In "transform-async-to-generator" selected.
Proof.
  destruct (@buildPreset_useSyntax_false Sample.imports (Sample.options [] (JSBool false))
              eq_refl)
    as (_ & selected & Hselected & Hall & _).
  exists selected. split; [exact Hselected |]. split; apply Hall.
  - left. reflexivity.
  - intros [].
  - right. left. reflexivity.
  - intros [].
Defined.

(** C9: the claim fails for an [uglify] key with a falsy value.  The caller's
    object [{uglify: false, chrome: "55.0.0"}] contains the key, [buildPreset]
    leaves the object as it was, and the effective target map is the target
    map, not the empty one. *)
Lemma buildPreset_uglify_false_kept :
  let n := Sample.options [] (JSBool true) in
  let w := Sample.world [("uglify", JSBool false); ("chrome", JSString "55.0.0")] in
  lookup (heap w 0%nat) "uglify" = Some (JSBool false) /\
  heap (snd (@buildPreset Sample.imports unit tt n w)) 0%nat =
    [("uglify", JSBool false); ("chrome", JSString "55.0.0")] /\
  exists r,
    fst (@buildPreset_resolve Sample.imports n w) = Ok r /\
    hasUglifyTarget r = false /\
    transformTargets r = targets r /\
    transformTargets r <> [].
Proof.
  cbv zeta. split; [reflexivity |]. split; [reflexivity |].
  eexists. split; [reflexivity |]. split; [reflexivity |]. split; [reflexivity |].
  discriminate.
Qed.

Lemma buildPreset_uglify_target_witness :
  let n := Sample.options [] (JSBool true) in
  let w := Sample.world [("uglify", JSBool true); ("chrome", JSString "55.0.0")] in
  heap (snd (@buildPreset Sample.imports unit tt n w)) 0%nat =
    [("chrome", JSString "55.0.0")] /\
  lookup (heap (snd (@buildPreset Sample.imports unit tt n w)) 0%nat) "uglify" = None.
Proof.
  cbv zeta.
  destruct (@buildPreset_uglify_target Sample.imports unit tt
              (Sample.options [] (JSBool true)) (Sample.options [] (JSBool true)) 0%nat
              (Sample.world [("uglify", JSBool true); ("chrome", JSString "55.0.0")])
              eq_refl eq_refl eq_refl)
    as (Hobject & Hgone & _).
  split; [exact Hobject | exact Hgone].
Defined.

(** * Further properties *)

(** ** Objects and sets *)

Lemma Object_keys_delete {V} (o : JSObject V) (k : string) :
  Object_keys (delete o k) = filter (fun k' => negb (k' =? k)) (Object_keys o).
Proof.
  induction o as [| [k0 v] o IH]; simpl; [reflexivity |].
  destruct (k0 =? k); simpl; now rewrite <- IH.
Qed.

Lemma In_keys_delete {V} (o : JSObject V) (k k' : string) :
  In k' (Object_keys (delete o k)) <-> In k' (Object_keys o) /\ k' <> k.
Proof.
  rewrite Object_keys_delete, filter_In, negb_true_iff, String.eqb_neq. reflexivity.
Qed.

Lemma lookup_None_keys {V} (o : JSObject V) (k : string) :
  lookup o k = None <-> ~ In k (Object_keys o).
Proof.
  induction o as [| [k0 v] o IH]; simpl; [tauto |].
  destruct (String.eqb_spec k0 k) as [-> | Hne].
  - split; [discriminate | intros H; elim H; auto].
  - rewrite IH. tauto.
Qed.

Lemma lookup_app_l {V} (o o' : JSObject V) (k : string) :
  In k (Object_keys o) -> lookup (o ++ o')%list k = lookup o k.
Proof.
  induction o as [| [k0 v] o IH]; simpl; [contradiction |].
  intros [-> | Hin].
  - now rewrite String.eqb_refl.
  - destruct (k0 =? k); [reflexivity | auto].
Qed.

Lemma NoDup_Set_add (x : string) (s : JSSet) : NoDup s -> NoDup (Set_add x s).
Proof.
  intros Hs. unfold Set_add. destruct (Set_has s x) eqn:Hx; [assumption |].
  apply Set_has_false in Hx.
  apply NoDup_app; [assumption | repeat constructor; intros [] |].
  intros y Hy [<- | []]. contradiction.
Qed.

Lemma Array_filter_ext {A} (f g : A -> outcome bool) (xs : list A) :
  (forall x, In x xs -> f x = g x) -> Array_filter f xs = Array_filter g xs.
Proof.
  induction xs as [| a xs IH]; simpl; intros Heq; [reflexivity |].
  rewrite (Heq a (or_introl eq_refl)), IH; auto.
Qed.

Lemma Array_filter_app {A} (f : A -> outcome bool) (xs ys : list A) :
  Array_filter f (xs ++ ys) =
    (kept <- Array_filter f xs ;; more <- Array_filter f ys ;; Ok (kept ++ more)%list).
Proof.
  induction xs as [| a xs IH]; simpl.
  - destruct (Array_filter f ys); reflexivity.
  - destruct (f a) as [b | e]; simpl; [| reflexivity]. rewrite IH.
    destruct (Array_filter f xs) as [kept | e]; simpl; [| reflexivity].
    destruct (Array_filter f ys) as [more | e]; simpl; [| reflexivity].
    now destruct b.
Qed.

Lemma Array_filter_Throw_inv {A} (f : A -> outcome bool) (xs : list A) (e : JSError) :
  Array_filter f xs = Throw e ->
  exists before x after,
    xs = (before ++ x :: after)%list /\
    (forall y, In y before -> exists b, f y = Ok b) /\
    f x = Throw e.
Proof.
  induction xs as [| a xs IH]; simpl; intros H; [discriminate |].
  destruct (f a) as [b | e0] eqn:Hfa; simpl in H.
  - destruct (Array_filter f xs) as [rest | e1] eqn:Hrest; simpl in H; [discriminate |].
    injection H as ->. destruct (IH eq_refl) as (before & x & after & -> & Hall & Hx).
    exists (a :: before), x, after. split; [reflexivity |]. split; [| assumption].
    intros y [<- | Hy]; eauto.
  - injection H as ->. exists [], a, xs. split; [reflexivity |]. split; [intros y [] | assumption].
Qed.

(** ** [getBuiltInTargets] *)

(** X1.  The polyfill target map has no [uglify] entry other than [null] or
    [undefined] (an entry [false] is removed too, unlike at line 135), and it
    agrees with the target map on every other environment. *)
Theorem getBuiltInTargets_strips_uglify (targets : TargetMap) :
  not_nullish (get (getBuiltInTargets targets) "uglify") = false /\
  (not_nullish (get targets "uglify") = true ->
   ~ In "uglify" (Object_keys (getBuiltInTargets targets))) /\
  (forall k, k <> "uglify" -> lookup (getBuiltInTargets targets) k = lookup targets k) /\
  (forall k, k <> "uglify" ->
             (In k (Object_keys (getBuiltInTargets targets)) <-> In k (Object_keys targets))).
Proof.
  unfold getBuiltInTargets.
  destruct (not_nullish (get targets "uglify")) eqn:Hu.
  - split; [| split; [| split]].
    + unfold get. now rewrite lookup_delete_same.
    + intros _ Hin. apply In_keys_delete in Hin. tauto.
    + intros k Hk. now apply lookup_delete_other.
    + intros k Hk. rewrite In_keys_delete. tauto.
  - split; [assumption |]. split; [discriminate |]. split; [reflexivity | tauto].
Qed.

Section EvaluatorFurther.

Context {imports : Imports}.

(** The evaluation of an environment reads the target map and the support
    table at that environment only. *)
Lemma isRequiredForEnvironment_local (T T' : TargetMap) (S S' : SupportTable) (k : string) :
  get T k = get T' k -> get S k = get S' k ->
  isRequiredForEnvironment T S k = isRequiredForEnvironment T' S' k.
Proof.
  intros HT HS. unfold isRequiredForEnvironment. now rewrite HT, HS.
Qed.

(** X2.  [isPluginRequired] reads the support table at the targeted
    environments only: two support tables that agree there get the same
    answer, or the same error. *)
Theorem isPluginRequired_only_targeted (T : TargetMap) (S S' : SupportTable) :
  (forall k, In k (Object_keys T) -> get S k = get S' k) ->
  isPluginRequired T S = isPluginRequired T S'.
Proof.
  intros Hagree. unfold isPluginRequired.
  destruct (length (Object_keys T) =? 0)%nat; [reflexivity |].
  rewrite (Array_filter_ext (isRequiredForEnvironment T S) (isRequiredForEnvironment T S')).
  - reflexivity.
  - intros k Hk. apply isRequiredForEnvironment_local; auto.
Qed.

(** X3.  [isPluginRequired] raises exactly the error of the first environment,
    in the order of [Object.keys], whose evaluation fails; that environment
    has a truthy entry in the support table, and the error is the
    invalid-version error of line 40 when the target's version is not valid,
    and otherwise the one [semverify] or [semver.gt] raised. *)
Theorem isPluginRequired_Throw_iff (T : TargetMap) (S : SupportTable) (e : JSError) :
  (isPluginRequired T S = Throw e <->
   exists before k after,
     Object_keys T = (before ++ k :: after)%list /\
     (forall k', In k' before -> evaluates T S k') /\
     isRequiredForEnvironment T S k = Throw e) /\
  (forall k,
      isRequiredForEnvironment T S k = Throw e ->
      truthy (get S k) = true /\
      ((semver_valid (get T k) = false /\
        e = Error (invalidVersionMessage k (get T k))) \/
       (semver_valid (get T k) = true /\
        (semverify (get S k) = Throw e \/
         exists v, semverify (get S k) = Ok v /\ semver_gt v (get T k) = Throw e)))).
Proof.
  split.
  - split.
    + intros H. unfold isPluginRequired in H.
      destruct (length (Object_keys T) =? 0)%nat; [discriminate |].
      destruct (Array_filter _ _) as [kept | e'] eqn:Hf; simpl in H; [discriminate |].
      injection H as ->. apply Array_filter_Throw_inv in Hf. exact Hf.
    + intros (before & k & after & Hkeys & Hbefore & Hk).
      assert (Hne : T <> []).
      { intros ->. simpl in Hkeys. destruct before; discriminate. }
      rewrite isPluginRequired_nonempty by assumption. rewrite Hkeys.
      rewrite (Array_filter_Throw _ before after k e Hbefore Hk). reflexivity.
  - intros k H. unfold isRequiredForEnvironment in H.
    destruct (truthy (get S k)); simpl in H; [| discriminate]. split; [reflexivity |].
    destruct (semver_valid (get T k)); simpl in H.
    + right. split; [reflexivity |].
      destruct (semverify (get S k)) as [v | e']; simpl in H.
      * right. eauto.
      * left. congruence.
    + left. split; [reflexivity |]. congruence.
Qed.

(** X4.  Targeting more environments never turns a required plugin into one
    that is not required: if [isPluginRequired] answers [true] for a non-empty
    target map, it answers [true] for every extension of the map on which the
    added environments can be evaluated.  (The empty map is apart: it answers
    [true] whatever an extension answers.) *)
Theorem isPluginRequired_more_targets (T T' : TargetMap) (S : SupportTable) :
  T <> [] ->
  isPluginRequired T S = Ok true ->
  (forall k, In k (Object_keys T') -> evaluates (T ++ T')%list S k) ->
  isPluginRequired (T ++ T')%list S = Ok true.
Proof.
  intros Hne Htrue Hmore.
  rewrite isPluginRequired_nonempty in Htrue by assumption.
  rewrite isPluginRequired_nonempty by (destruct T; [congruence | discriminate]).
  unfold Object_keys in *. rewrite map_app, Array_filter_app.
  rewrite (Array_filter_ext (isRequiredForEnvironment (T ++ T')%list S)
             (isRequiredForEnvironment T S) (map fst T)).
  - destruct (Array_filter (isRequiredForEnvironment T S) (map fst T)) as [kept | e];
      simpl in Htrue; [| discriminate].
    simpl. destruct (Array_filter_total _ _ Hmore) as [more ->]. simpl.
    injection Htrue as Hlen. f_equal.
    destruct kept; [discriminate | reflexivity].
  - intros k Hk. apply isRequiredForEnvironment_local; [| reflexivity].
    unfold get. now rewrite lookup_app_l.
Qed.

End EvaluatorFurther.

Lemma isPluginRequired_only_targeted_witness :
  @isPluginRequired Sample.imports [("chrome", JSString "55.0.0")]
    [("chrome", JSString "60"); ("edge", JSString "not a version")] =
  @isPluginRequired Sample.imports [("chrome", JSString "55.0.0")]
    [("chrome", JSString "60")].
Proof.
  apply (@isPluginRequired_only_targeted Sample.imports).
  intros k [<- | []]. reflexivity.
Defined.

Lemma isPluginRequired_Throw_iff_witness :
  @isPluginRequired Sample.imports
    [("chrome", JSString "55.0.0"); ("edge", JSString "14.0.0")]
    [("chrome", JSString "60"); ("edge", JSString "fourteen")] =
  Throw (Error "Invalid candidate version: fourteen").
Proof.
  apply (proj1 (@isPluginRequired_Throw_iff Sample.imports _ _ _)).
  exists ["chrome"], "edge", []. split; [reflexivity |]. split; [| reflexivity].
  intros k' [<- | []]. exists true. reflexivity.
Defined.

Lemma isPluginRequired_more_targets_witness :
  @isPluginRequired Sample.imports
    [("chrome", JSString "55.0.0"); ("edge", JSString "14.0.0")]
    [("chrome", JSString "60"); ("edge", JSString "12")] = Ok true.
Proof.
  apply (@isPluginRequired_more_targets Sample.imports
           [("chrome", JSString "55.0.0")] [("edge", JSString "14.0.0")]).
  - discriminate.
  - reflexivity.
  - intros k [<- | []]. exists false. reflexivity.
Defined.

(** ** [filterItems], further *)

Lemma NoDup_addDefaultItems (excludes : JSSet) (defaultItems : list string) (result : JSSet) :
  NoDup result -> NoDup (addDefaultItems excludes defaultItems result).
Proof.
  unfold addDefaultItems. revert result.
  induction defaultItems as [| d ds IH]; simpl; intros result Hr; [assumption |].
  apply IH. destruct (Set_has excludes d); simpl; [assumption | now apply NoDup_Set_add].
Qed.

Lemma NoDup_addIncludes (includes result : JSSet) :
  NoDup result -> NoDup (addIncludes includes result).
Proof.
  unfold addIncludes. revert result.
  induction includes as [| i more IH]; simpl; intros result Hr; [assumption |].
  apply IH. now apply NoDup_Set_add.
Qed.

Section FilterEngineFurther.

Context {imports : Imports}.

Lemma filterItem_NoDup (excludes : JSSet) (targets : TargetMap) (acc acc' : JSSet)
  (entry : string * SupportTable) :
  filterItem excludes targets acc entry = Ok acc' -> NoDup acc -> NoDup acc'.
Proof.
  destruct entry as [item plugin]. unfold filterItem.
  destruct (Set_has excludes item); cbn [negb bind]; intros H Hacc.
  - injection H as <-. assumption.
  - destruct (isPluginRequired targets plugin) as [[|] | e]; cbn [bind] in H;
      [| | discriminate]; injection H as <-; [now apply NoDup_Set_add | assumption].
Qed.

Lemma filterItem_loop_NoDup (excludes : JSSet) (targets : TargetMap) (list : Catalog) :
  forall acc result,
    foldM (filterItem excludes targets) list acc = Ok result -> NoDup acc -> NoDup result.
Proof.
  induction list as [| entry list IH]; intros acc result H Hacc; cbn [foldM] in H.
  - injection H as <-. assumption.
  - destruct (filterItem excludes targets acc entry) as [acc' | e] eqn:Hstep;
      cbn [bind] in H; [| discriminate].
    apply (IH _ _ H). exact (filterItem_NoDup _ _ _ _ _ Hstep Hacc).
Qed.

Lemma filterItem_loop_answers (excludes : JSSet) (targets : TargetMap) (list : Catalog) :
  forall acc result,
    foldM (filterItem excludes targets) list acc = Ok result ->
    answersFor list excludes targets.
Proof.
  induction list as [| [item plugin] list IH]; intros acc result H; cbn [foldM] in H.
  - intros i p [].
  - destruct (filterItem excludes targets acc (item, plugin)) as [acc' | e] eqn:Hstep;
      cbn [bind] in H; [| discriminate].
    intros i p [Heq | Hin] Hex.
    + injection Heq as <- <-. unfold filterItem in Hstep. rewrite Hex in Hstep.
      cbn [negb bind] in Hstep.
      destruct (isPluginRequired targets plugin) as [b | e]; [eauto | discriminate].
    + exact (IH _ _ H i p Hin Hex).
Qed.

(** X5.  The result of [filterItems] holds an excluded name only if the name
    is in the include set, and it holds nothing but catalog keys, default
    items and included names. *)
Theorem filterItems_exclude_and_origin (list : Catalog) (includes excludes : JSSet)
  (targets : TargetMap) (defaultItems : option (Datatypes.list string)) (result : JSSet) :
  filterItems list includes excludes targets defaultItems = Ok result ->
  (forall x, In x excludes -> ~ In x includes -> ~ In x result) /\
  (forall x, In x result ->
             In x (Object_keys list) \/
             (exists defaults, defaultItems = Some defaults /\ In x defaults) \/
             In x includes).
Proof.
  intros H. split.
  - intros x Hex Hinc Hx. apply (filterItems_Ok _ _ _ _ _ _ H) in Hx.
    apply Set_has_In in Hex.
    destruct Hx as [(p & _ & Hno & _) | [(d & _ & _ & Hno) | Hi]];
      [congruence | congruence | contradiction].
  - intros x Hx. apply (filterItems_Ok _ _ _ _ _ _ H) in Hx.
    destruct Hx as [(p & Hin & _) | [(d & Hd & Hin & _) | Hi]].
    + left. apply In_Object_keys. eauto.
    + right. left. eauto.
    + right. right. assumption.
Qed.

(** X6.  [filterItems] returns a set exactly when the evaluator answers for
    every catalog entry that is not excluded: an entry the exclude set names
    is never evaluated, so it cannot make [filterItems] fail, and neither can
    the include set or the default items. *)
Theorem filterItems_completes_iff (list : Catalog) (includes excludes : JSSet)
  (targets : TargetMap) (defaultItems : option (Datatypes.list string)) :
  (exists result, filterItems list includes excludes targets defaultItems = Ok result) <->
  answersFor list excludes targets.
Proof.
  split.
  - intros [result H]. unfold filterItems in H.
    destruct (foldM (filterItem excludes targets) list []) as [r0 | e] eqn:Hloop;
      cbn [bind] in H; [| discriminate].
    exact (filterItem_loop_answers _ _ _ _ _ Hloop).
  - apply filterItems_total.
Qed.

(** X7.  The result of [filterItems] names every item once, also when the
    catalog, the default items and the include set overlap. *)
Theorem filterItems_NoDup (list : Catalog) (includes excludes : JSSet)
  (targets : TargetMap) (defaultItems : option (Datatypes.list string)) (result : JSSet) :
  filterItems list includes excludes targets defaultItems = Ok result -> NoDup result.
Proof.
  unfold filterItems. intros H.
  destruct (foldM (filterItem excludes targets) list []) as [r0 | e] eqn:Hloop;
    cbn [bind] in H; [| discriminate].
  injection H as <-. apply NoDup_addIncludes.
  pose proof (filterItem_loop_NoDup _ _ _ _ _ Hloop (NoDup_nil _)) as Hr0.
  destruct defaultItems; [now apply NoDup_addDefaultItems | assumption].
Qed.

Lemma getPlatformSpecificDefaultFor_None (T : TargetMap) :
  getPlatformSpecificDefaultFor T = None <->
  T <> [] /\ forall k, In k (Object_keys T) -> k = "node".
Proof.
  unfold getPlatformSpecificDefaultFor. destruct T as [| kv T'] eqn:HT.
  - simpl. split; [discriminate | intros [[] _]; reflexivity].
  - rewrite <- HT.
    replace (length (Object_keys T) =? 0)%nat with false by (subst; reflexivity).
    simpl orb.
    destruct (existsb (fun name => negb (name =? "node")) (Object_keys T)) eqn:Hex.
    + split; [discriminate |]. intros [_ Hall].
      apply existsb_exists in Hex as (k & Hk & Hne).
      rewrite (Hall k Hk) in Hne. discriminate.
    + split; [| reflexivity]. intros _. split; [subst; discriminate |].
      intros k Hk. destruct (String.eqb_spec k "node") as [-> | Hne]; [reflexivity |].
      assert (Htrue : existsb (fun name => negb (name =? "node")) (Object_keys T) = true).
      { apply existsb_exists. exists k. split; [assumption |].
        apply negb_true_iff. now apply String.eqb_neq. }
      congruence.
Qed.

(** X8.  For the default polyfills an [uglify] target does not count as an
    environment: with a non-null [uglify] entry in the target map, no default
    set is chosen for the polyfill targets exactly when the map has another
    environment and every other environment is [node]. *)
Theorem polyfill_defaults_ignore_uglify (T : TargetMap) :
  not_nullish (get T "uglify") = true ->
  (getPlatformSpecificDefaultFor (getBuiltInTargets T) = None <->
   (exists k, In k (Object_keys T) /\ k <> "uglify") /\
   (forall k, In k (Object_keys T) -> k = "node" \/ k = "uglify")).
Proof.
  intros Hu. rewrite getPlatformSpecificDefaultFor_None.
  unfold getBuiltInTargets. rewrite Hu. split.
  - intros [Hne Hall]. split.
    + destruct (delete T "uglify") as [| [k v] rest] eqn:Hd; [congruence |].
      assert (Hin : In k (Object_keys (delete T "uglify"))) by (rewrite Hd; now left).
      exists k. now apply In_keys_delete in Hin.
    + intros k Hk. destruct (String.eqb_spec k "uglify") as [-> | Hneq]; [auto |].
      left. apply Hall. apply In_keys_delete. auto.
  - intros [(k & Hk & Hneq) Hall]. split.
    + intros Hd. assert (Hin : In k (Object_keys (delete T "uglify")))
        by (apply In_keys_delete; auto).
      rewrite Hd in Hin. contradiction.
    + intros k' Hk'. apply In_keys_delete in Hk' as [Hk' Hneq'].
      destruct (Hall k' Hk'); [assumption | contradiction].
Qed.

End FilterEngineFurther.

Lemma filterItems_exclude_and_origin_witness :
  @filterItems Sample.imports Sample.plugins_json ["my-plugin"]
    ["transform-async-to-generator"] [] None =
    Ok ["transform-exponentiation-operator"; "my-plugin"] /\
  ~ In "transform-async-to-generator"
      ["transform-exponentiation-operator"; "my-plugin"].
Proof.
  assert (H : @filterItems Sample.imports Sample.plugins_json ["my-plugin"]
                ["transform-async-to-generator"] [] None =
              Ok ["transform-exponentiation-operator"; "my-plugin"]) by reflexivity.
  split; [exact H |].
  apply (proj1 (@filterItems_exclude_and_origin Sample.imports _ _ _ _ _ _ H)).
  - left. reflexivity.
  - intros [Heq | []]. discriminate.
Defined.

(** [web.timers] is a catalog entry, a default item and an included name. *)
Lemma filterItems_NoDup_witness :
  exists result,
    @filterItems Sample.imports Sample.built_ins_json ["web.timers"] [] [] 
      (Some Sample.default_includes) = Ok result /\
    In "web.timers" result /\ NoDup result.
Proof.
  eexists. split; [reflexivity |]. split; [right; left; reflexivity |].
  apply (@filterItems_NoDup Sample.imports Sample.built_ins_json ["web.timers"] [] []
           (Some Sample.default_includes)).
  reflexivity.
Defined.

Lemma polyfill_defaults_ignore_uglify_witness :
  @getPlatformSpecificDefaultFor Sample.imports
    (getBuiltInTargets [("uglify", JSBool true); ("node", JSString "8.0.0")]) = None.
Proof.
  apply (@polyfill_defaults_ignore_uglify Sample.imports
           [("uglify", JSBool true); ("node", JSString "8.0.0")] eq_refl).
  split.
  - exists "node". split; [right; left; reflexivity | discriminate].
  - intros k [<- | [<- | []]]; auto.
Defined.

(** ** The effects of [buildPreset] *)

Section Steps.

Variable R : World -> World -> Prop.
Hypothesis R_refl : forall w, R w w.
Hypothesis R_trans : forall w1 w2 w3, R w1 w2 -> R w2 w3 -> R w1 w3.

Lemma follows_ret {A} (a : A) : follows R (ret a).
Proof. intros w. apply R_refl. Qed.

Lemma follows_lift {A} (r : outcome A) : follows R (lift r).
Proof. intros w. apply R_refl. Qed.

Lemma follows_read_hasBeenLogged : follows R read_hasBeenLogged.
Proof. intros w. apply R_refl. Qed.

Lemma follows_read_object (r : loc) : follows R (read_object r).
Proof. intros w. apply R_refl. Qed.

(** What follows a first step relates the world after that step to the
    final world. *)
Lemma after_bindM {A B} (c : M A) (k : A -> M B) (w : World) :
  (forall a, follows R (k a)) -> R (snd (c w)) (snd (bindM c k w)).
Proof.
  intros Hk. unfold bindM. destruct (c w) as [[a | e] w1]; simpl; [apply Hk | apply R_refl].
Qed.

Lemma follows_bindM {A B} (c : M A) (k : A -> M B) :
  follows R c -> (forall a, follows R (k a)) -> follows R (bindM c k).
Proof.
  intros Hc Hk w. apply (R_trans _ (snd (c w))); [apply Hc | now apply after_bindM].
Qed.

Lemma follows_forEachM {A} (f : A -> M unit) (xs : list A) :
  (forall x, follows R (f x)) -> follows R (forEachM f xs).
Proof.
  intros Hf. induction xs as [| x xs IH]; simpl.
  - apply follows_ret.
  - apply follows_bindM; auto.
Qed.

End Steps.

Lemma flagKept_refl (w : World) : flagKept w w.
Proof. intros H. exact H. Qed.

Lemma flagKept_trans (w1 w2 w3 : World) : flagKept w1 w2 -> flagKept w2 w3 -> flagKept w1 w3.
Proof. unfold flagKept. auto. Qed.

Lemma consoleGrows_refl (w : World) : consoleGrows w w.
Proof. exists []. now rewrite app_nil_r. Qed.

Lemma consoleGrows_trans (w1 w2 w3 : World) :
  consoleGrows w1 w2 -> consoleGrows w2 w3 -> consoleGrows w1 w3.
Proof.
  intros [l1 H1] [l2 H2]. exists (l1 ++ l2)%list. now rewrite H2, H1, app_assoc.
Qed.

Lemma unchanged_refl (w : World) : unchanged w w.
Proof. reflexivity. Qed.

Lemma unchanged_trans (w1 w2 w3 : World) : unchanged w1 w2 -> unchanged w2 w3 -> unchanged w1 w3.
Proof. unfold unchanged. congruence. Qed.

Lemma flagKept_console_log (line : string) : follows flagKept (console_log line).
Proof. intros w H. exact H. Qed.

Lemma flagKept_write_true : follows flagKept (write_hasBeenLogged true).
Proof. intros w H. reflexivity. Qed.

Lemma flagKept_delete_property (r : loc) (k : string) : follows flagKept (delete_property r k).
Proof. intros w H. exact H. Qed.

Lemma consoleGrows_console_log (line : string) : follows consoleGrows (console_log line).
Proof. intros w. exists [line]. reflexivity. Qed.

Lemma consoleGrows_write_hasBeenLogged (b : bool) :
  follows consoleGrows (write_hasBeenLogged b).
Proof. intros w. exists []. simpl. now rewrite app_nil_r. Qed.

Lemma consoleGrows_delete_property (r : loc) (k : string) :
  follows consoleGrows (delete_property r k).
Proof. intros w. exists []. simpl. now rewrite app_nil_r. Qed.

Create HintDb world discriminated.

#[local] Hint Resolve flagKept_refl consoleGrows_refl unchanged_refl : world.
#[local] Hint Resolve follows_ret follows_lift follows_read_hasBeenLogged follows_read_object
  flagKept_console_log flagKept_write_true flagKept_delete_property
  consoleGrows_console_log consoleGrows_write_hasBeenLogged consoleGrows_delete_property
  : world.

(** Splits a computation into its steps, for a relation between worlds that
    is reflexive ([refl]) and transitive ([trans]). *)
Ltac world_steps refl trans :=
  repeat first
    [ solve [auto with world]
    | apply (follows_bindM _ refl trans)
    | apply (follows_forEachM _ refl trans)
    | match goal with
      | |- follows _ (if ?b then _ else _) => destruct b
      | |- follows _ (match ?o with Some _ => _ | None => _ end) => destruct o
      end
    | progress intros ].

Section Effects.

Context {imports : Imports}.

Lemma flagKept_buildPreset {BabelApi : Type} (context : BabelApi) (opts : RawOptions) :
  follows flagKept (buildPreset context opts).
Proof.
  unfold buildPreset, buildPreset_resolve, buildPreset_emit, logSummary, logPlugin,
    stripUglifyTarget, callGetTargets.
  world_steps flagKept_refl flagKept_trans.
Qed.

Lemma consoleGrows_buildPreset_emit (n : NormalizedOptions) (r : Resolution) :
  follows consoleGrows (buildPreset_emit n r).
Proof.
  unfold buildPreset_emit, logSummary, logPlugin.
  world_steps consoleGrows_refl consoleGrows_trans.
Qed.

End Effects.

Section EffectsOfBuildPreset.

Context {imports : Imports}.

Lemma logSummary_sets_flag (n : NormalizedOptions) (r : Resolution) (w : World) :
  truthy (debug n) = true -> hasBeenLogged (snd (logSummary n r w)) = true.
Proof.
  intros Hd. unfold logSummary, bindM at 1, read_hasBeenLogged. rewrite Hd.
  destruct (hasBeenLogged w) eqn:Hw; cbn [andb negb]; [exact Hw |].
  match goal with
  | |- hasBeenLogged (snd (bindM ?c ?k ?w0)) = true =>
      apply (after_bindM flagKept flagKept_refl c k w0)
  end; [| reflexivity].
  unfold logPlugin. world_steps flagKept_refl flagKept_trans.
Qed.

Lemma buildPreset_emit_sets_flag (n : NormalizedOptions) (r : Resolution) (w : World) :
  truthy (debug n) = true -> hasBeenLogged (snd (buildPreset_emit n r w)) = true.
Proof.
  intros Hd. unfold buildPreset_emit.
  match goal with
  | |- hasBeenLogged (snd (bindM ?c ?k ?w0)) = true =>
      apply (after_bindM flagKept flagKept_refl c k w0)
  end; [| now apply logSummary_sets_flag].
  world_steps flagKept_refl flagKept_trans.
Qed.

(** X9.  The flag [hasBeenLogged] works once: no run of [buildPreset] resets
    it, a run that finds it set writes no summary, and a run with [debug] that
    returns leaves it set. *)
Theorem hasBeenLogged_one_shot :
  (forall (BabelApi : Type) (context : BabelApi) opts w,
      hasBeenLogged w = true ->
      hasBeenLogged (snd (buildPreset context opts w)) = true) /\
  (forall n r w, hasBeenLogged w = true -> logSummary n r w = (Ok tt, w)) /\
  (forall (BabelApi : Type) (context : BabelApi) opts n w p w',
      normalizeOptions opts = Ok n ->
      truthy (debug n) = true ->
      buildPreset context opts w = (Ok p, w') ->
      hasBeenLogged w' = true).
Proof.
  split; [| split].
  - intros BabelApi context opts w. apply (flagKept_buildPreset context opts w).
  - intros n r w Hw. unfold logSummary, bindM, read_hasBeenLogged. rewrite Hw.
    now rewrite andb_false_r.
  - intros BabelApi context opts n w p w' Hn Hd H.
    apply buildPreset_Ok in H as (n' & r & w1 & Hn' & _ & He).
    assert (n' = n) as -> by congruence.
    pose proof (buildPreset_emit_sets_flag n r w1 Hd) as Hflag.
    now rewrite He in Hflag.
Qed.

Lemma console_after_stripUglifyTarget (target : loc) (w : World) :
  truthy (get (heap w target) "uglify") = true ->
  console (snd (stripUglifyTarget (Some target) w)) = (console w ++ deprecationNotice)%list.
Proof.
  intros H. unfold stripUglifyTarget, bindM, read_object. rewrite H. simpl.
  now rewrite <- !app_assoc.
Qed.

(** X10.  The deprecation notice is written whenever the caller's targets
    object has a truthy [uglify] entry, before any other line, whatever
    [debug] and [hasBeenLogged] are and whether [buildPreset] returns or
    throws afterwards. *)
Theorem buildPreset_deprecation_notice {BabelApi : Type} (context : BabelApi)
  (opts : RawOptions) (n : NormalizedOptions) (target : loc) (w : World) :
  normalizeOptions opts = Ok n ->
  optionsTargets n = Some target ->
  truthy (get (heap w target) "uglify") = true ->
  exists lines,
    console (snd (buildPreset context opts w)) =
      (console w ++ deprecationNotice ++ lines)%list.
Proof.
  intros Hn Htarget Huglify. unfold buildPreset. rewrite Hn.
  change (bindM (lift (Ok n)) ?k w) with (k n w). cbv beta.
  match goal with
  | |- context [snd (bindM ?c ?k w)] =>
      destruct (after_bindM consoleGrows consoleGrows_refl c k w) as [l1 H1]
  end.
  { intros r. apply consoleGrows_buildPreset_emit. }
  rewrite H1. clear H1. unfold buildPreset_resolve.
  match goal with
  | |- context [snd (bindM ?c ?k w)] =>
      destruct (after_bindM consoleGrows consoleGrows_refl c k w) as [l2 H2]
  end.
  { unfold callGetTargets. world_steps consoleGrows_refl consoleGrows_trans. }
  rewrite H2, Htarget, (console_after_stripUglifyTarget target w Huglify).
  exists (l2 ++ l1)%list. now rewrite <- !app_assoc.
Qed.

Lemma stripUglifyTarget_quiet (optionsTargets : option loc) (w : World) :
  (forall target, optionsTargets = Some target ->
                  truthy (get (heap w target) "uglify") = false) ->
  stripUglifyTarget optionsTargets w = (Ok false, w).
Proof.
  intros H. destruct optionsTargets as [target |]; [| reflexivity].
  apply stripUglifyTarget_falsy. now apply H.
Qed.

(** X11.  Without [debug] and without a truthy [uglify] entry [buildPreset]
    writes nothing: the console, the flag and every object are as before,
    whether it returns or throws. *)
Theorem buildPreset_quiet {BabelApi : Type} (context : BabelApi) (opts : RawOptions)
  (n : NormalizedOptions) (w : World) :
  normalizeOptions opts = Ok n ->
  truthy (debug n) = false ->
  (forall target, optionsTargets n = Some target ->
                  truthy (get (heap w target) "uglify") = false) ->
  snd (buildPreset context opts w) = w.
Proof.
  intros Hn Hd Huglify. unfold buildPreset. rewrite Hn.
  change (bindM (lift (Ok n)) ?k w) with (k n w). cbv beta.
  assert (Hemit : forall r, follows unchanged (buildPreset_emit n r)).
  { intros r. unfold buildPreset_emit, logSummary.
    destruct (truthy (debug n)); [discriminate |]. cbn [andb].
    world_steps unchanged_refl unchanged_trans. }
  match goal with
  | |- snd (bindM ?c ?k w) = w =>
      rewrite (after_bindM unchanged unchanged_refl c k w Hemit)
  end.
  unfold buildPreset_resolve.
  match goal with
  | |- snd (bindM ?c ?k w) = w =>
      rewrite (after_bindM unchanged unchanged_refl c k w)
  end.
  - now rewrite (stripUglifyTarget_quiet _ w Huglify).
  - unfold callGetTargets. world_steps unchanged_refl unchanged_trans.
Qed.

(** X12.  The target map is parsed from the caller's object as [buildPreset]
    leaves it: [getTargets] receives the object after the [uglify] step, and
    that object has no truthy [uglify] entry. *)
Theorem getTargets_after_uglify (n : NormalizedOptions) (w w' : World) (r : Resolution) :
  buildPreset_resolve n w = (Ok r, w') ->
  (optionsTargets n = None -> getTargets None = Ok (targets r)) /\
  (forall target,
      optionsTargets n = Some target ->
      getTargets (Some (heap w' target)) = Ok (targets r) /\
      truthy (get (heap w' target) "uglify") = false /\
      heap w' target =
        (if truthy (get (heap w target) "uglify")
         then delete (heap w target) "uglify"
         else heap w target)).
Proof.
  intros H. apply buildPreset_resolve_Ok in H as (w1 & Hstrip & Hget & _).
  split.
  - intros Hnone. rewrite Hnone in Hget. unfold callGetTargets in Hget.
    now apply lift_Ok in Hget as [Hget _].
  - intros target Htarget. rewrite Htarget in Hstrip, Hget.
    unfold callGetTargets, bindM, read_object, lift in Hget.
    injection Hget as Hget <-. split; [exact Hget |].
    destruct (truthy (get (heap w target) "uglify")) eqn:Hu.
    + destruct (stripUglifyTarget_truthy target w Hu) as [_ Hheap].
      rewrite Hstrip in Hheap. simpl in Hheap. rewrite Hheap, Nat.eqb_refl.
      split; [| reflexivity]. unfold get. now rewrite lookup_delete_same.
    + rewrite (stripUglifyTarget_falsy target w Hu) in Hstrip.
      injection Hstrip as _ <-. auto.
Qed.

End EffectsOfBuildPreset.

(** ** What [buildPreset] selects and returns *)

Lemma JSValue_eqb_eq (a b : JSValue) : JSValue_eqb a b = true <-> a = b.
Proof.
  destruct a, b; simpl; try (split; [discriminate | congruence]); try tauto.
  - rewrite Bool.eqb_true_iff. split; congruence.
  - rewrite Z.eqb_eq. split; congruence.
  - rewrite String.eqb_eq. split; congruence.
Qed.

Lemma In_plugins_transformIncludesAndExcludes (opts : list string) (name : string) :
  In name (plugins (transformIncludesAndExcludes opts)) <->
  In name opts /\ ~ BuiltInName name.
Proof.
  destruct (transformIncludesAndExcludes_loop opts {| all := opts; plugins := []; builtIns := [] |})
    as (_ & _ & Hp).
  fold (transformIncludesAndExcludes opts) in Hp. cbn [plugins] in Hp.
  rewrite Hp, <- matchesBuiltIn_spec. simpl.
  destruct (matchesBuiltIn name); intuition congruence.
Qed.

Section Selection.

Context {imports : Imports}.

Lemma buildPreset_resolve_polyfills (n : NormalizedOptions) (w w' : World) (r : Resolution) :
  buildPreset_resolve n w = (Ok r, w') ->
  (truthy (useBuiltIns n) = true ->
   exists selected,
     polyfills r = Some selected /\
     polyfillTargets r = Some (getBuiltInTargets (targets r)) /\
     filterItems builtInsList (builtIns (include r)) (builtIns (exclude r))
       (getBuiltInTargets (targets r))
       (getPlatformSpecificDefaultFor (getBuiltInTargets (targets r))) = Ok selected) /\
  (truthy (useBuiltIns n) = false -> polyfills r = None /\ polyfillTargets r = None).
Proof.
  unfold buildPreset_resolve. intros H.
  apply bindM_Ok in H as (h & w1 & _ & H).
  apply bindM_Ok in H as (t & w2 & _ & H).
  apply bindM_Ok in H as (tr & w3 & _ & H).
  destruct (truthy (useBuiltIns n)).
  - apply bindM_Ok in H as (p & w4 & Hpoly & H).
    apply lift_Ok in Hpoly as [Hpoly _].
    unfold ret in H. injection H as <- _. cbn. split; [eauto | discriminate].
  - unfold ret in H. injection H as <- _. cbn. split; [discriminate | auto].
Qed.

Lemma getPlatformSpecificDefaultFor_Some (T : TargetMap) (defaults : list string) :
  getPlatformSpecificDefaultFor T = Some defaults -> defaults = defaultWebIncludes.
Proof.
  unfold getPlatformSpecificDefaultFor.
  destruct (_ || _); [intros H; now injection H | discriminate].
Qed.

(** X13.  The polyfills are resolved exactly when [useBuiltIns] is truthy, and
    then against the real target map without its [uglify] entry, also when
    [useSyntax] is false or an [uglify] target emptied the map the
    transformations are filtered with.  They are the polyfills of the catalog
    that are required for these targets and not excluded, the default web
    polyfills that are not excluded if a default set applies, and the
    included polyfill names. *)
Theorem buildPreset_polyfills (n : NormalizedOptions) (w w' : World) (r : Resolution) :
  buildPreset_resolve n w = (Ok r, w') ->
  let exclude := transformIncludesAndExcludes (optionsExclude n) in
  let include := transformIncludesAndExcludes (optionsInclude n) in
  let polyfillTargets := getBuiltInTargets (targets r) in
  (polyfills r = None <-> truthy (useBuiltIns n) = false) /\
  (forall selected,
      polyfills r = Some selected ->
      forall x,
        In x selected <->
        (exists table,
            In (x, table) builtInsList /\ ~ In x (builtIns exclude) /\
            isPluginRequired polyfillTargets table = Ok true) \/
        (In x defaultWebIncludes /\ ~ In x (builtIns exclude) /\
         getPlatformSpecificDefaultFor polyfillTargets <> None) \/
        In x (builtIns include)).
Proof.
  intros H exclude include polyfillTargets.
  destruct (buildPreset_resolve_polyfills n w w' r H) as [Hon Hoff].
  apply buildPreset_resolve_Ok in H as (w1 & _ & _ & Hinc & Hexc & _).
  destruct (truthy (useBuiltIns n)) eqn:Hb.
  - destruct (Hon eq_refl) as (selected & Hsel & _ & Hfilter).
    rewrite Hinc, Hexc in Hfilter. fold include exclude polyfillTargets in Hfilter.
    split; [rewrite Hsel; split; discriminate |].
    intros selected' Heq x. assert (selected' = selected) as -> by congruence.
    rewrite (filterItems_Ok _ _ _ _ _ _ Hfilter x). split.
    + intros [(p & Hin & Hx & Hreq) | [(d & Hd & Hin & Hx) | Hi]].
      * left. exists p. rewrite <- Set_has_false. auto.
      * right. left. pose proof (getPlatformSpecificDefaultFor_Some _ _ Hd) as ->.
        rewrite <- Set_has_false. repeat split; auto. congruence.
      * auto.
    + intros [(p & Hin & Hx & Hreq) | [(Hin & Hx & Hd) | Hi]].
      * left. exists p. rewrite Set_has_false. auto.
      * right. left.
        destruct (getPlatformSpecificDefaultFor polyfillTargets) as [d |] eqn:Hd';
          [| congruence].
        exists d. pose proof (getPlatformSpecificDefaultFor_Some _ _ Hd') as ->.
        rewrite Set_has_false. auto.
      * auto.
  - destruct (Hoff eq_refl) as [Hnone _]. split; [tauto |].
    intros selected Heq. congruence.
Qed.

(** X14.  Every included name that is not a polyfill name is among the
    plugins [buildPreset] returns, as [babel-plugin-<name>] with the [loose]
    option, whatever the targets are and also when the name is excluded or
    unknown to the catalog. *)
Theorem buildPreset_included_plugins {BabelApi : Type} (context : BabelApi)
  (opts : RawOptions) (n : NormalizedOptions) (w w' : World) (p : Preset.t) (name : string) :
  normalizeOptions opts = Ok n ->
  buildPreset context opts w = (Ok p, w') ->
  In name (optionsInclude n) ->
  ~ BuiltInName name ->
  In (require ("babel-plugin-" ++ name), LooseOptions (loose n)) (Preset.plugins p).
Proof.
  intros Hn H Hin Hplugin.
  apply buildPreset_Ok in H as (n' & r & w1 & Hn' & Hr & He).
  assert (n' = n) as -> by congruence.
  destruct (buildPreset_emit_Ok _ _ _ _ _ He) as [injected ->].
  apply in_or_app. left. apply In_transformPlugins.
  apply buildPreset_resolve_Ok in Hr as (w2 & _ & _ & Hinc & _ & _ & Hfilter).
  apply (filterItems_Ok _ _ _ _ _ _ Hfilter). right. right.
  rewrite Hinc. apply In_plugins_transformIncludesAndExcludes. auto.
Qed.

(** X15.  The polyfill injection is the last plugin [buildPreset] returns, and
    is there exactly for [useBuiltIns] ["usage"] and ["entry"]: it carries the
    resolved polyfill set (never [undefined]) and the flag [regenerator], which
    is true exactly when [transform-regenerator] is a selected
    transformation.  For any other [useBuiltIns] the plugins are the module
    transformation and the selected transformations only. *)
Theorem buildPreset_injection {BabelApi : Type} (context : BabelApi) (opts : RawOptions)
  (n : NormalizedOptions) (w w' : World) (p : Preset.t) :
  normalizeOptions opts = Ok n ->
  buildPreset context opts w = (Ok p, w') ->
  exists r w1 regenerator,
    buildPreset_resolve n w = (Ok r, w1) /\
    (regenerator = true <-> In "transform-regenerator" (transformations r)) /\
    (useBuiltIns n = JSString "usage" ->
     exists selected,
       polyfills r = Some selected /\
       Preset.plugins p =
         (transformPlugins n r ++
          [(addUsedBuiltInsPlugin, UsageOptions (debug n) (Some selected) regenerator)])%list) /\
    (useBuiltIns n = JSString "entry" ->
     exists selected,
       polyfills r = Some selected /\
       Preset.plugins p =
         (transformPlugins n r ++
          [(useBuiltInsEntryPlugin,
            EntryOptions (debug n) (Some selected) regenerator
              (Some (getBuiltInTargets (targets r))))])%list) /\
    (useBuiltIns n <> JSString "usage" -> useBuiltIns n <> JSString "entry" ->
     Preset.plugins p = transformPlugins n r).
Proof.
  intros Hn H.
  apply buildPreset_Ok in H as (n' & r & w1 & Hn' & Hr & He).
  assert (n' = n) as -> by congruence.
  exists r, w1, (Set_has (transformations r) "transform-regenerator").
  split; [exact Hr |]. split; [apply Set_has_In |].
  destruct (buildPreset_resolve_polyfills n w w1 r Hr) as [Hon _].
  unfold buildPreset_emit in He.
  apply bindM_Ok in He as (u1 & w2 & _ & He). cbv beta zeta in He.
  apply bindM_Ok in He as (u2 & w3 & _ & He). cbv beta in He.
  destruct (JSValue_eqb (useBuiltIns n) (JSString "usage")) eqn:Husage.
  - apply JSValue_eqb_eq in Husage.
    destruct Hon as (selected & Hsel & _); [now rewrite Husage |].
    unfold ret in He. injection He as <- _. cbn [Preset.plugins]. rewrite Hsel.
    split; [eauto |]. split; [intros Heq; congruence | intros Hne; congruence].
  - destruct (JSValue_eqb (useBuiltIns n) (JSString "entry")) eqn:Hentry.
    + apply JSValue_eqb_eq in Hentry.
      destruct Hon as (selected & Hsel & Htargets & _); [now rewrite Hentry |].
      unfold ret in He. injection He as <- _. cbn [Preset.plugins].
      rewrite Hsel, Htargets.
      split; [intros Heq; congruence |]. split; [eauto | intros _ Hne; congruence].
    + apply bindM_Ok in He as (u3 & w4 & _ & He).
      unfold ret in He. injection He as <- _. cbn [Preset.plugins].
      split; [| split; [| reflexivity]]; intros Heq;
        apply JSValue_eqb_eq in Heq; congruence.
Qed.

End Selection.

(** ** [logPlugin] *)

Lemma In_keys_set {V} (o : JSObject V) (b k : string) (v : V) :
  In k (Object_keys (set o b v)) <-> k = b \/ In k (Object_keys o).
Proof.
  induction o as [| [k0 v0] o IH]; simpl.
  - intuition congruence.
  - destruct (String.eqb_spec k0 b) as [-> | Hne]; simpl.
    + intuition congruence.
    + rewrite IH. intuition congruence.
Qed.

Lemma lookup_set {V} (o : JSObject V) (b k : string) (v : V) :
  lookup (set o b v) k = if b =? k then Some v else lookup o k.
Proof.
  induction o as [| [k0 v0] o IH]; simpl.
  - reflexivity.
  - destruct (String.eqb_spec k0 b) as [-> | Hne]; simpl.
    + destruct (b =? k); reflexivity.
    + rewrite IH. destruct (String.eqb_spec k0 k) as [-> | Hk]; [| reflexivity].
      destruct (String.eqb_spec b k); [congruence | reflexivity].
Qed.

Section DebugLog.

Context {imports : Imports}.

Lemma logPlugin_unfold (plugin : string) (targets : TargetMap) (list : Catalog) :
  logPlugin plugin targets list =
    (filteredList <--
       lift (foldM (logPlugin_step targets (envListOf list plugin)) (Object_keys targets) []) ;;
     console_log ("  " ++ plugin ++ " " ++ JSON_stringify filteredList)).
Proof. reflexivity. Qed.

Lemma logPlugin_step_Ok (targets : TargetMap) (envList : SupportTable)
  (a a' : JSObject JSValue) (b : string) :
  logPlugin_step targets envList a b = Ok a' ->
  (forall k, In k (Object_keys a') <->
             In k (Object_keys a) \/ (k = b /\ listedFor targets envList b)) /\
  (forall k v, lookup a' k = Some v ->
               lookup a k = Some v \/ prettifyVersion (get targets k) = Ok v).
Proof.
  unfold logPlugin_step, listedFor. intros H.
  destruct (truthy (get envList b)) eqn:Ht; cbn [negb] in H.
  - destruct (semverify (get envList b)) as [implemented | e] eqn:Hs; cbn [bind] in H;
      [| discriminate].
    destruct (semver_lt (get targets b) implemented) as [[|] | e] eqn:Hl; cbn [bind] in H;
      [| | discriminate].
    + destruct (prettifyVersion (get targets b)) as [v |] eqn:Hp; cbn [bind] in H;
        [| discriminate].
      injection H as <-. split.
      * intros k. rewrite In_keys_set. split.
        -- intros [-> | Hk]; [right; split; [reflexivity | eauto] | auto].
        -- intros [Hk | [-> _]]; auto.
      * intros k v'. rewrite lookup_set.
        destruct (String.eqb_spec b k) as [<- | Hne]; [| auto].
        intros Heq. right. congruence.
    + injection H as <-. split; [| auto].
      intros k. split; [auto |]. intros [Hk | [-> [Hf | (i & Hi & Hlt)]]];
        [assumption | congruence | congruence].
  - destruct (prettifyVersion (get targets b)) as [v |] eqn:Hp; cbn [bind] in H;
      [| discriminate].
    injection H as <-. split.
    + intros k. rewrite In_keys_set. split.
      * intros [-> | Hk]; auto.
      * intros [Hk | [-> _]]; auto.
    + intros k v'. rewrite lookup_set.
      destruct (String.eqb_spec b k) as [<- | Hne]; [| auto].
      intros Heq. right. congruence.
Qed.

Lemma logPlugin_loop_Ok (targets : TargetMap) (envList : SupportTable) (keys : list string) :
  forall acc filteredList,
    foldM (logPlugin_step targets envList) keys acc = Ok filteredList ->
    (forall k, In k (Object_keys filteredList) <->
               In k (Object_keys acc) \/ (In k keys /\ listedFor targets envList k)) /\
    (forall k v, lookup filteredList k = Some v ->
                 lookup acc k = Some v \/ prettifyVersion (get targets k) = Ok v).
Proof.
  induction keys as [| b keys IH]; intros acc filteredList H; cbn [foldM] in H.
  - injection H as <-. split; [| auto]. intros k. simpl. tauto.
  - destruct (logPlugin_step targets envList acc b) as [acc' | e] eqn:Hstep;
      cbn [bind] in H; [| discriminate].
    destruct (IH _ _ H) as [Hkeys Hvalues].
    destruct (logPlugin_step_Ok _ _ _ _ _ Hstep) as [Hkeys' Hvalues']. split.
    + intros k. rewrite Hkeys, Hkeys'. simpl. split.
      * intros [[Hk | [-> Hl]] | [Hk Hl]]; auto.
      * intros [Hk | [[<- | Hk] Hl]]; auto.
    + intros k v Hlook. destruct (Hvalues k v Hlook) as [Hacc' | Hp]; auto.
Qed.

(** X16.  A run of [logPlugin] that returns has written one line, the item's
    name and the rendering of an object whose keys are exactly the targeted
    environments for which the item's support entry is falsy (also: every
    environment, for an item the catalog does not know) or newer than the
    target, each with the prettified target version.  When [semver.lt] and
    [semver.gt] agree and the targets are valid, these are exactly the
    environments that make [isPluginRequired] answer [true]. *)
Theorem logPlugin_lists_required (plugin : string) (targets : TargetMap) (list : Catalog)
  (w w' : World) :
  logPlugin plugin targets list w = (Ok tt, w') ->
  exists filteredList,
    console w' =
      (console w ++ [("  " ++ plugin ++ " " ++ JSON_stringify filteredList)%string])%list /\
    (forall k,
        In k (Object_keys filteredList) <->
        In k (Object_keys targets) /\ listedFor targets (envListOf list plugin) k) /\
    (forall k v,
        lookup filteredList k = Some v -> prettifyVersion (get targets k) = Ok v) /\
    (validTargets targets ->
     comparisonsAgree targets (envListOf list plugin) ->
     forall k,
       In k (Object_keys filteredList) <->
       In k (Object_keys targets) /\
       isRequiredForEnvironment targets (envListOf list plugin) k = Ok true).
Proof.
  rewrite logPlugin_unfold. intros H.
  apply bindM_Ok in H as (filteredList & w1 & Hloop & Hlog).
  apply lift_Ok in Hloop as [Hloop ->].
  unfold console_log in Hlog. injection Hlog as <-.
  destruct (logPlugin_loop_Ok _ _ _ _ _ Hloop) as [Hkeys Hvalues].
  assert (Hlisted : forall k,
             In k (Object_keys filteredList) <->
             In k (Object_keys targets) /\ listedFor targets (envListOf list plugin) k).
  { intros k. rewrite Hkeys. simpl. tauto. }
  exists filteredList. split; [reflexivity |]. split; [exact Hlisted |]. split.
  - intros k v Hlook. destruct (Hvalues k v Hlook) as [Hnil | Hp]; [discriminate | exact Hp].
  - intros Hvalid Hagree k. rewrite Hlisted. split; intros [Hk Hl]; (split; [exact Hk |]).
    + apply isRequiredForEnvironment_Ok; [auto |].
      destruct (truthy (get (envListOf list plugin) k)) eqn:Ht; [right | left; auto].
      split; [reflexivity |].
      destruct Hl as [Hf | (implemented & Hs & Hlt)]; [congruence |].
      exists implemented. split; [exact Hs |]. now apply (Hagree k implemented true Hk Hs).
    + apply isRequiredForEnvironment_Ok in Hl; [| auto].
      destruct Hl as [[Hf _] | [_ (implemented & Hs & Hgt)]]; [left; exact Hf |].
      right. exists implemented. split; [exact Hs |].
      now apply (Hagree k implemented true Hk Hs).
Qed.

End DebugLog.

Lemma buildPreset_deprecation_notice_witness :
  exists lines,
    console (snd (@buildPreset Sample.imports unit tt
                    (Sample.options [] (JSBool true)) Scenario.with_uglify)) =
      (deprecationNotice ++ lines)%list.
Proof.
  exact (@buildPreset_deprecation_notice Sample.imports unit tt
           (Sample.options [] (JSBool true)) (Sample.options [] (JSBool true)) 0%nat
           Scenario.with_uglify eq_refl eq_refl eq_refl).
Defined.

Lemma buildPreset_quiet_witness :
  snd (@buildPreset Sample.imports unit tt (Sample.options [] (JSBool true))
         Scenario.chrome_only) = Scenario.chrome_only.
Proof.
  apply (@buildPreset_quiet Sample.imports unit tt (Sample.options [] (JSBool true))
           (Sample.options [] (JSBool true)) Scenario.chrome_only eq_refl eq_refl).
  intros target _. reflexivity.
Defined.

Lemma getTargets_after_uglify_witness :
  exists r w',
    @buildPreset_resolve Sample.imports (Sample.options [] (JSBool true))
      Scenario.with_uglify = (Ok r, w') /\
    Sample.getTargets_spec (Some (heap w' 0%nat)) = Ok (targets r) /\
    heap w' 0%nat = [("chrome", JSString "55.0.0")].
Proof.
  destruct (@buildPreset_resolve Sample.imports (Sample.options [] (JSBool true))
              Scenario.with_uglify) as [[r | e] w'] eqn:Heq.
  - exists r, w'. split; [reflexivity |].
    destruct (@getTargets_after_uglify Sample.imports _ _ _ _ Heq) as [_ Hsome].
    destruct (Hsome 0%nat eq_refl) as (Hget & _ & Hheap).
    split; [exact Hget | exact Hheap].
  - vm_compute in Heq. discriminate.
Defined.

Lemma buildPreset_polyfills_witness :
  exists r w' selected,
    @buildPreset_resolve Sample.imports Scenario.usage_options Scenario.node_only
      = (Ok r, w') /\
    polyfills r = Some selected /\
    In "web.timers" selected /\
    ~ In "web.immediate" selected.
Proof.
  destruct (@buildPreset_resolve Sample.imports Scenario.usage_options Scenario.node_only)
    as [[r | e] w'] eqn:Heq.
  - destruct (@buildPreset_polyfills Sample.imports _ _ _ _ Heq) as [Hnone Hsome].
    destruct (polyfills r) as [selected |] eqn:Hp.
    + exists r, w', selected. split; [reflexivity |]. split; [exact Hp |].
      vm_compute in Heq. injection Heq as <- _. split.
      * apply (Hsome selected eq_refl). left. exists [].
        split; [right; left; reflexivity |]. split; [intros [] | reflexivity].
      * injection Hp as <-. intros [H | [H | []]]; discriminate.
    + apply proj1 in Hnone. specialize (Hnone eq_refl). discriminate.
  - vm_compute in Heq. discriminate.
Defined.

Lemma my_plugin_is_no_polyfill : ~ BuiltInName "my-plugin".
Proof.
  intros H. apply matchesBuiltIn_spec in H. discriminate.
Defined.

Lemma buildPreset_included_plugins_witness :
  exists p w',
    @buildPreset Sample.imports unit tt Scenario.usage_options Scenario.chrome_only
      = (Ok p, w') /\
    In (require "babel-plugin-my-plugin", LooseOptions (JSBool false)) (Preset.plugins p).
Proof.
  destruct (@buildPreset Sample.imports unit tt Scenario.usage_options Scenario.chrome_only)
    as [[p | e] w'] eqn:Heq.
  - exists p, w'. split; [reflexivity |].
    apply (@buildPreset_included_plugins Sample.imports unit tt Scenario.usage_options
             Scenario.usage_options Scenario.chrome_only w' p "my-plugin" eq_refl Heq).
    + left. reflexivity.
    + exact my_plugin_is_no_polyfill.
  - vm_compute in Heq. discriminate.
Defined.

Lemma buildPreset_injection_witness :
  exists p w' r w1 regenerator selected,
    @buildPreset Sample.imports unit tt Scenario.usage_options Scenario.chrome_only
      = (Ok p, w') /\
    @buildPreset_resolve Sample.imports Scenario.usage_options Scenario.chrome_only
      = (Ok r, w1) /\
    (regenerator = true <-> In "transform-regenerator" (transformations r)) /\
    Preset.plugins p =
      (@transformPlugins Sample.imports Scenario.usage_options r ++
       [(addUsedBuiltInsPlugin, UsageOptions (JSBool false) (Some selected) regenerator)])%list.
Proof.
  destruct (@buildPreset Sample.imports unit tt Scenario.usage_options Scenario.chrome_only)
    as [[p | e] w'] eqn:Heq.
  - destruct (@buildPreset_injection Sample.imports unit tt Scenario.usage_options
                Scenario.usage_options Scenario.chrome_only w' p eq_refl Heq)
      as (r & w1 & regenerator & Hr & Hflag & Husage & _).
    destruct (Husage eq_refl) as (selected & _ & Hplugins).
    exists p, w', r, w1, regenerator, selected. auto.
  - vm_compute in Heq. discriminate.
Defined.

Lemma sample_comparisonsAgree :
  @comparisonsAgree Sample.imports Scenario.two_targets
    (@envListOf Scenario.one_item "transform-x").
Proof.
  intros k implemented answer [<- | [<- | []]] Hs;
    vm_compute in Hs; injection Hs as <-; vm_compute; tauto.
Defined.

Lemma logPlugin_lists_required_witness :
  exists filteredList,
    console (snd (@logPlugin Sample.imports "transform-x" Scenario.two_targets
                    Scenario.one_item Scenario.chrome_only)) =
      [("  transform-x " ++ Sample.stringify filteredList)%string] /\
    (In "chrome" (Object_keys filteredList) <->
     @isRequiredForEnvironment Sample.imports Scenario.two_targets
       (@envListOf Scenario.one_item "transform-x") "chrome" = Ok true) /\
    (In "edge" (Object_keys filteredList) <->
     @isRequiredForEnvironment Sample.imports Scenario.two_targets
       (@envListOf Scenario.one_item "transform-x") "edge" = Ok true).
Proof.
  destruct (@logPlugin Sample.imports "transform-x" Scenario.two_targets Scenario.one_item
              Scenario.chrome_only) as [[[] | e] w'] eqn:Heq.
  - destruct (@logPlugin_lists_required Sample.imports _ _ _ _ _ Heq)
      as (filteredList & Hconsole & _ & _ & Hrequired).
    exists filteredList. split; [exact Hconsole |].
    assert (Hvalid : @validTargets Sample.imports Scenario.two_targets).
    { intros k [<- | [<- | []]]; reflexivity. }
    pose proof (Hrequired Hvalid sample_comparisonsAgree) as Hkeys.
    split; rewrite Hkeys.
    + split; [intros [_ H]; exact H | intros H; split; [left; reflexivity | exact H]].
    + split; [intros [_ H]; exact H |
              intros H; split; [right; left; reflexivity | exact H]].
  - vm_compute in Heq. discriminate.
Defined.

(** ** When [buildPreset] returns *)

Section Returns.

Context {imports : Imports}.




End Returns.

